(** * Waveform modulator: parser and waveform engine

    A shallow embedding of [lib/gui.py] ([_evaluate_input] and its three
    patterns, [_evaluate_btn] and [_PRE_MAP]) and of [lib/waveform.py]
    ([_waveforms_numpy], [_waveforms_native], [waveforms]).

    Conventions of the embedding:
    - a Python [str] is the list of its code points ([N]); a tuple of
      one-character strings is the list of those characters;
    - a Python exception is a [Raise] in the [result] monad;
    - what the interpreter brings and the repository does not is a field of
      the class [Runtime]: the Unicode table of decimal digits, the bytes
      found in freshly allocated numpy buffers, and the arithmetic of
      [float];
    - the engine is written once, over the arithmetic of the runtime, and
      read in two arithmetics: [exact_runtime], where a [float] is a real
      number and nothing is rounded, and [binary64_runtime], the IEEE 754
      double precision numbers that CPython and numpy compute with. *)

From Stdlib Require Import ZArith NArith List Bool Lia Reals Lra String Ascii.
From Stdlib Require PrimFloat SpecFloat FloatOps FloatAxioms FloatLemmas.
From stdpp Require Import base list.

(** ** Double precision numbers *)

Module B64.

(** [float(z)]: the double nearest to [z] (an infinity where CPython
    raises [OverflowError], far beyond any number of samples). *)
Definition of_Z (z : Z) : PrimFloat.float :=
  FloatOps.SF2Prim
    (SpecFloat.binary_normalize FloatOps.prec FloatOps.emax z 0 false).

(** An integer as a binary number with the exponent 0 (a mantissa of any
    size). *)
Definition spec_of_Z (z : Z) : SpecFloat.spec_float :=
  match z with
  | Z0 => SpecFloat.S754_zero false
  | Zpos p => SpecFloat.S754_finite false p 0
  | Zneg p => SpecFloat.S754_finite true p 0
  end.

(** [a / b] on integers, [b] not zero: the double nearest to the exact
    quotient, rounded once (an infinity where CPython raises
    [OverflowError]: the dividend of every such division of the program
    is 1). *)
Definition div_Z (a b : Z) : PrimFloat.float :=
  FloatOps.SF2Prim
    (SpecFloat.SFdiv FloatOps.prec FloatOps.emax (spec_of_Z a) (spec_of_Z b)).

(** [ceil(x)] as an integer; nothing on a NaN or an infinity. *)
Definition ceil (x : PrimFloat.float) : option Z :=
  match FloatOps.Prim2SF x with
  | SpecFloat.S754_zero _ => Some 0%Z
  | SpecFloat.S754_finite s m e =>
      let a := if s then Z.neg m else Z.pos m in
      Some (if (0 <=? e)%Z then a * 2 ^ e else - ((- a) / 2 ^ (- e)))%Z
  | _ => None
  end.

(** [math.pi]: [0x1.921fb54442d18p+1]. *)
Definition pi : PrimFloat.float :=
  FloatOps.SF2Prim (SpecFloat.S754_finite false 7074237752028440 (-51)).

Definition is_zero (x : PrimFloat.float) : bool :=
  PrimFloat.eqb x PrimFloat.zero.

End B64.

(** ** The Python runtime *)

Module Py.

Inductive exn : Set :=
| ZeroDivisionError
| ValueError
| IndexError.

Inductive result (A : Type) : Type :=
| Ok (a : A)
| Raise (e : exn).
Arguments Ok {A} a.
Arguments Raise {A} e.

Definition bind {A B} (m : result A) (k : A -> result B) : result B :=
  match m with
  | Ok a => k a
  | Raise e => Raise e
  end.

(** A [for] loop whose body may raise, over the loop-carried state. *)
Fixpoint foldM {S A} (body : S -> A -> result S) (l : list A) (s : S)
  : result S :=
  match l with
  | [] => Ok s
  | a :: l' => bind (body s a) (foldM body l')
  end.

(** Code points and strings. *)
Definition pychar := N.
Definition pystr := list pychar.

Definition ord (c : pychar) : N := c.

(** A string literal, for inputs and expected outputs. *)
Definition str (s : string) : pystr :=
  map N_of_ascii (list_ascii_of_string s).

Definition chr0 : pychar := 48%N.
Definition chr1 : pychar := 49%N.

(** [tuple(s)]: the characters of [s], each a one-character string. *)
Definition tuple (s : pystr) : list pychar := s.

Class Runtime := {
  (* digit value of the non-ASCII code points of category Nd *)
  unicode_decimal : pychar -> option N;
  (* the numbers of type [float] and their arithmetic *)
  float : Type;
  float_of_int : Z -> float;
  (* [a / b] on integers, [b] not zero: the quotient rounded once *)
  ftruediv : Z -> Z -> float;
  fadd : float -> float -> float;
  fsub : float -> float -> float;
  fmul : float -> float -> float;
  fdiv : float -> float -> float;
  fis_zero : float -> bool;
  (* [math.sin], [numpy.sin] *)
  fsin : float -> float;
  (* [math.pi], [numpy.pi] *)
  fpi : float;
  (* rounding up to an integer; nothing on a NaN or an infinity *)
  fceil : float -> option Z;
  (* content of the [n]-th buffer [numpy.empty_like] hands out *)
  uninitialized : nat -> nat -> float
}.

Declare Scope py_scope.
Delimit Scope py_scope with py.
Notation "x + y" := (fadd x y) : py_scope.
Notation "x - y" := (fsub x y) : py_scope.
Notation "x * y" := (fmul x y) : py_scope.
Notation "x / y" := (fdiv x y) : py_scope.

(** Exact arithmetic: a [float] is a real number. *)
Definition exact_runtime (digits : pychar -> option N)
    (garbage : nat -> nat -> R) : Runtime :=
  {| unicode_decimal := digits;
     float := R;
     float_of_int := IZR;
     ftruediv := fun a b => (IZR a / IZR b)%R;
     fadd := Rplus; fsub := Rminus; fmul := Rmult; fdiv := Rdiv;
     fis_zero := fun x => if Req_dec_T x 0 then true else false;
     fsin := sin;
     fpi := PI;
     fceil := fun x => Some (Zceil x);
     uninitialized := garbage |}.

(** The arithmetic of CPython and numpy: IEEE 754 double precision, with
    the [sin] of the C library. *)
Definition binary64_runtime (digits : pychar -> option N)
    (libm_sin : PrimFloat.float -> PrimFloat.float)
    (garbage : nat -> nat -> PrimFloat.float) : Runtime :=
  {| unicode_decimal := digits;
     float := PrimFloat.float;
     float_of_int := B64.of_Z;
     ftruediv := B64.div_Z;
     fadd := PrimFloat.add; fsub := PrimFloat.sub;
     fmul := PrimFloat.mul; fdiv := PrimFloat.div;
     fis_zero := B64.is_zero;
     fsin := libm_sin;
     fpi := B64.pi;
     fceil := B64.ceil;
     uninitialized := garbage |}.

(** A runtime to run the definitions on: exact arithmetic, no decimal digit
    beyond ASCII, zeros in fresh buffers. *)
Definition plain_runtime : Runtime :=
  exact_runtime (fun _ => None) (fun _ _ => 0%R).

(** The decimal digit a character stands for, if it is one: what [\d]
    matches without [re.ASCII], and what [int] accepts on one character. *)
Definition decimal_value `{Runtime} (c : pychar) : option N :=
  if (48 <=? c)%N && (c <=? 57)%N then Some (c - 48)%N
  else if (c <? 128)%N then None
  else unicode_decimal c.

(** [int(c)] on a one-character string. *)
Definition int `{Runtime} (c : pychar) : result N :=
  match decimal_value c with
  | Some d => Ok d
  | None => Raise ValueError
  end.

(** Binary digits of a positive number, most significant first. *)
Fixpoint pos_bits (p : positive) : pystr :=
  match p with
  | xH => [chr1]
  | xO p' => pos_bits p' ++ [chr0]
  | xI p' => pos_bits p' ++ [chr1]
  end.

(** ["{:0Wb}".format(n)] for [n >= 0]: the binary digits of [n], padded
    with zeros on the left up to [W] characters, never cut. *)
Definition format_b (width : nat) (n : N) : pystr :=
  let digits := match n with
                | N0 => [chr0]
                | Npos p => pos_bits p
                end in
  replicate (width - length digits) chr0 ++ digits.

(** [range(lo, hi)]. *)
Definition range (lo hi : Z) : list Z := seqZ lo (hi - lo).

(** [enumerate(l)]. *)
Definition enumerate {A} (l : list A) : list (Z * A) :=
  imap (fun i a => (Z.of_nat i, a)) l.

(** [[x] * k]: empty when [k <= 0]. *)
Definition repeat_list {A} (x : A) (k : Z) : list A :=
  replicate (Z.to_nat k) x.

(** A list index: negative indices count from the end. *)
Definition index (len : nat) (i : Z) : option nat :=
  let i' := if (i <? 0)%Z then (i + Z.of_nat len)%Z else i in
  if (0 <=? i')%Z && (i' <? Z.of_nat len)%Z then Some (Z.to_nat i') else None.

(** [l[i]]. *)
Definition getitem {A} (l : list A) (i : Z) : result A :=
  match index (length l) i with
  | Some k => match l !! k with
              | Some a => Ok a
              | None => Raise IndexError
              end
  | None => Raise IndexError
  end.

(** [l[i] = x]. *)
Definition setitem {A} (l : list A) (i : Z) (x : A) : result (list A) :=
  match index (length l) i with
  | Some k => Ok (<[k := x]> l)
  | None => Raise IndexError
  end.

(** A slice bound: clipped to [0 .. len], negative bounds count from the
    end. *)
Definition bound (len : nat) (b : Z) : nat :=
  if (b <? 0)%Z then Z.to_nat (b + Z.of_nat len)
  else Nat.min (Z.to_nat b) len.

(** [l[:hi]]. *)
Definition slice_to {A} (l : list A) (hi : Z) : list A :=
  take (bound (length l) hi) l.

(** [s.startswith(p)]. *)
Fixpoint startswith (s p : pystr) : bool :=
  match p, s with
  | [], _ => true
  | a :: p', b :: s' => (a =? b)%N && startswith s' p'
  | _ :: _, [] => false
  end.

(** [s.replace(old, new)] for a non-empty [old], from the left, the
    occurrences not overlapping: [skip] characters of an occurrence already
    replaced are still to be passed over. *)
Fixpoint replace_from (old new : pystr) (skip : nat) (s : pystr) : pystr :=
  match s with
  | [] => []
  | c :: s' =>
      match skip with
      | S k => replace_from old new k s'
      | O => if startswith s old
             then new ++ replace_from old new (length old - 1) s'
             else c :: replace_from old new 0 s'
      end
  end.

(** [s.replace(old, new)]; an empty [old] is found before every character
    and at the end. *)
Definition replace (s old new : pystr) : pystr :=
  match old with
  | [] => new ++ flat_map (fun c => c :: new) s
  | _ :: _ => replace_from old new 0 s
  end.

(** [a / b] on integers: the exact quotient, rounded once (Python does not
    convert the operands first). *)
Definition truediv `{Runtime} (a b : Z) : result float :=
  if (b =? 0)%Z then Raise ZeroDivisionError
  else Ok (ftruediv a b).

(** [a % b] on integers: the sign of the divisor, as [Z.modulo]. *)
Definition mod_ (a b : Z) : result Z :=
  if (b =? 0)%Z then Raise ZeroDivisionError else Ok (a mod b)%Z.

End Py.

#[global] Instance result_ret : MRet Py.result := @Py.Ok.
#[global] Instance result_bind : MBind Py.result := fun A B k m => Py.bind m k.

(** ** The [re] module, as far as the three patterns need it *)

Module Re.
Import Py.

(** One-character items of a pattern. *)
Inductive atom : Type :=
| Lit (c : pychar)            (* an ordinary character *)
| Dot                         (* [.] *)
| Digit                       (* [\d] *)
| OneOf (cs : list pychar).   (* [[...]] *)

Inductive regex : Type :=
| Void
| Eps
| Atom (a : atom)
| Cat (r1 r2 : regex)
| Alt (r1 r2 : regex)
| Star (r : regex).

(** [r+] *)
Definition Plus (r : regex) : regex := Cat r (Star r).

Record flags := { ASCII : bool }.

Definition no_flags : flags := {| ASCII := false |}.

(** [.] matches everything but a newline, whatever the flags ([DOTALL]
    is not modelled: no pattern sets it); [re.ASCII] narrows [\d] to
    [[0-9]]. *)
Definition atom_matches `{Runtime} (fl : flags) (a : atom) (c : pychar)
  : bool :=
  match a with
  | Lit c' => (c =? c')%N
  | Dot => negb (c =? 10)%N
  | Digit => if ASCII fl then (48 <=? c)%N && (c <=? 57)%N
             else match decimal_value c with Some _ => true | None => false end
  | OneOf cs => existsb (N.eqb c) cs
  end.

Fixpoint nullable (r : regex) : bool :=
  match r with
  | Void => false
  | Eps => true
  | Atom _ => false
  | Cat r1 r2 => nullable r1 && nullable r2
  | Alt r1 r2 => nullable r1 || nullable r2
  | Star _ => true
  end.

(** What is left of [r] after reading [c]. *)
Fixpoint deriv `{Runtime} (fl : flags) (r : regex) (c : pychar) : regex :=
  match r with
  | Void => Void
  | Eps => Void
  | Atom a => if atom_matches fl a c then Eps else Void
  | Cat r1 r2 =>
      if nullable r1
      then Alt (Cat (deriv fl r1 c) r2) (deriv fl r2 c)
      else Cat (deriv fl r1 c) r2
  | Alt r1 r2 => Alt (deriv fl r1 c) (deriv fl r2 c)
  | Star r1 => Cat (deriv fl r1 c) (Star r1)
  end.

(** A compiled pattern. *)
Record pattern := compile { pat : regex; pat_flags : flags }.

(** [r] against all of [s]: read [s], then ask whether the empty string is
    left. *)
Definition matches `{Runtime} (fl : flags) (r : regex) (s : pystr) : bool :=
  nullable (fold_left (deriv fl) s r).

(** [re.fullmatch(p, s)], as a truth value: the whole of [s] is in the
    language of [p]. *)
Definition fullmatch `{Runtime} (p : pattern) (s : pystr) : bool :=
  matches (pat_flags p) (pat p) s.

End Re.

(** ** [lib/gui.py] *)

Module Gui.
Import Py Re.

(** ["[01]+"] *)
Definition _BINARY_PATTERN : pattern :=
  compile (Plus (Atom (OneOf [chr0; chr1]))) no_flags.

(** ["a_.+"], [flags=re.ASCII] *)
Definition _ASCII_PATTERN : pattern :=
  compile (Cat (Atom (Lit 97%N)) (Cat (Atom (Lit 95%N)) (Plus (Atom Dot))))
          {| ASCII := true |}.

(** ["d_\d+"] *)
Definition _DECIMAL_PATTERN : pattern :=
  compile (Cat (Atom (Lit 100%N)) (Cat (Atom (Lit 95%N)) (Plus (Atom Digit))))
          no_flags.

(** [raise ValueError("Invalid input.")] is [Raise ValueError]; so is a
    failing [int]. *)
Definition _evaluate_input `{Runtime} (inp : pystr) : result (list pychar) :=
  bit_string ←
    (if fullmatch _BINARY_PATTERN inp then
       Ok (Some inp)
     else if fullmatch _ASCII_PATTERN inp then
       Ok (Some (fold_left (fun bit_string i => bit_string ++ format_b 7 (ord i))
                           (drop 2 inp) []))
     else if fullmatch _DECIMAL_PATTERN inp then
       bit_string ← foldM (fun bit_string i =>
                              d ← int i;
                              Ok (bit_string ++ format_b 4 d))
                           (drop 2 inp) [];
       Ok (Some bit_string)
     else Ok None);
  match bit_string with
  | Some bit_string => Ok (tuple bit_string)
  | None => Raise ValueError
  end.

(** The dictionary [_PRE_MAP], in the order of its keys. *)
Definition _PRE_MAP : list (pystr * pystr) :=
  [ (str "1-bit Binary", str "");
    (str "4-bit Binary Coded Decimal", str "d_");
    (str "7-bit ASCII", str "a_") ].

(** [pre] and [inp] are what [pre.get()] and [inp.get()] return: the
    selected encoding and the text of the entry. *)
Definition _evaluate_btn `{Runtime} (pre inp : pystr) : result (list pychar) :=
  let prefix :=
    fold_left (fun prefix '(key, value) => replace prefix key value)
              _PRE_MAP pre in
  _evaluate_input (prefix ++ inp).

End Gui.

(** ** The part of numpy the engine uses, on one-dimensional arrays *)

Module Np.
Import Py.
Open Scope py_scope.

(** [numpy.arange(start, stop, step)] with integer ends and a float step:
    [ceil((stop - start) / step)] values [start + i * step], none when
    that count is not positive. The difference of the ends is taken on the
    integers, the quotient and the values on the floats; a zero step is the
    [ZeroDivisionError] of that quotient. (numpy fills the values from the
    first two; from [start = 0], the only use here, that is
    [start + i * step] to the last bit.) *)
Definition arange `{Runtime} (start stop : Z) (step : float)
  : result (list float) :=
  if fis_zero step then Raise ZeroDivisionError
  else match fceil (float_of_int (stop - start) / step) with
       | None => Raise ValueError
       | Some len =>
           Ok ((fun i => float_of_int start + float_of_int (Z.of_nat i) * step)
                 <$> seq 0 (Z.to_nat len))
       end.

(** [a * x], [x * a] and [numpy.sin(a)], elementwise. *)
Definition mul `{Runtime} (a : list float) (x : float) : list float :=
  (fun y => y * x) <$> a.
Definition rmul `{Runtime} (x : float) (a : list float) : list float :=
  (fun y => x * y) <$> a.
Definition sin `{Runtime} (a : list float) : list float := fsin <$> a.

(** [numpy.empty_like(a)]: the shape of [a], the content of the [n]-th
    fresh buffer. *)
Definition empty_like `{Runtime} (n : nat) (a : list float) : list float :=
  imap (fun i _ => uninitialized n i) a.

(** [a[lo:hi] = src]: [src] must have the length of the slice, or length
    one (it is then broadcast); anything else is a [ValueError]. *)
Definition set_slice {A} (a : list A) (lo hi : Z) (src : list A)
  : result (list A) :=
  let lo' := bound (length a) lo in
  let hi' := bound (length a) hi in
  let n := (hi' - lo')%nat in
  if (length src =? n)%nat then
    Ok (take lo' a ++ src ++ drop (lo' + n) a)
  else match src with
       | [x] => Ok (take lo' a ++ replicate n x ++ drop (lo' + n) a)
       | _ => Raise ValueError
       end.

End Np.

(** ** [lib/waveform.py] *)

Module Waveform.
Import Py.
Open Scope py_scope.

(** What the loop over the bits carries from one cycle to the next. *)
Record waves `{Runtime} := {
  am : list float;
  fm : list float;
  pm : list float;
  phase_shift : bool
}.

(** Truth value of an integer. *)
Definition truthy (v : N) : bool := negb (v =? 0)%N.

Definition _waveforms_numpy `{Runtime} (code : list pychar) (steps : Z)
  : result (list float * list float * list float * list float) :=
  step ← truediv 1 steps;
  t ← Np.arange 0 (Z.of_nat (length code)) step;
  (* Base sine curves *)
  let sin_t :=
    Np.sin (Np.mul (Np.mul (slice_to t steps) (float_of_int 2)) fpi) in
  let sin_2t :=
    Np.sin (Np.mul (Np.mul (Np.rmul (float_of_int 2) (slice_to t steps))
                           (float_of_int 2)) fpi) in
  w ← foldM
        (fun (w : waves) '(idx, val) =>
           let idx_low := (idx * steps)%Z in
           let idx_high := ((idx + 1) * steps)%Z in
           v ← int val;
           am ← Np.set_slice (am w) idx_low idx_high
                  (Np.rmul (float_of_int (Z.of_N v + 1) / float_of_int 2)
                           (slice_to sin_t steps));
           v ← int val;
           fm ← Np.set_slice (fm w) idx_low idx_high
                  (if truthy v then slice_to sin_2t steps
                   else slice_to sin_t steps);
           phase_shift ← (if (idx >? 0)%Z then
                            v ← int val;
                            Ok (xorb (phase_shift w) (negb (truthy v)))
                          else Ok (phase_shift w));
           let factor := if phase_shift : bool then (-1)%Z else 1%Z in
           pm ← Np.set_slice (pm w) idx_low idx_high
                  (Np.rmul (float_of_int factor) (slice_to sin_t steps));
           Ok {| am := am; fm := fm; pm := pm; phase_shift := phase_shift |})
        (enumerate code)
        {| am := Np.empty_like 0 t;
           fm := Np.empty_like 1 t;
           pm := Np.empty_like 2 t;
           phase_shift := false (* Initial shift *) |};
  Ok (t, am w, fm w, pm w).

Definition _waveforms_native `{Runtime} (code : list pychar) (steps : Z)
  : result (list float * list float * list float * list float) :=
  (* Time array *)
  let t := repeat_list (float_of_int 0) (steps * Z.of_nat (length code)) in
  step_width ← truediv 1 steps;
  t ← foldM
        (fun t idx =>
           prev ← getitem t (idx - 1);
           setitem t idx (prev + step_width))
        (range 1 (Z.of_nat (length t))) t;
  (* Base sine curves *)
  let sin_t := repeat_list (float_of_int 0) steps in
  let sin_2t := repeat_list (float_of_int 0) steps in
  '(sin_t, sin_2t) ← foldM
        (fun '(sin_t, sin_2t) '(idx, t_i) =>
           sin_t ← setitem sin_t idx (fsin (t_i * float_of_int 2 * fpi));
           sin_2t ← setitem sin_2t idx
                      (fsin (float_of_int 2 * t_i * float_of_int 2 * fpi));
           Ok (sin_t, sin_2t))
        (enumerate (slice_to t steps)) (sin_t, sin_2t);
  w ← foldM
        (fun (w : waves) '(idx, val) =>
           let idx_low := (idx * steps)%Z in
           let idx_high := ((idx + 1) * steps)%Z in
           foldM
             (fun (w : waves) i =>
                v ← int val;
                k ← mod_ i steps;
                s ← getitem sin_t k;
                am ← setitem (am w) i
                       (float_of_int (Z.of_N v + 1) / float_of_int 2 * s);
                v ← int val;
                k ← mod_ i steps;
                s ← (if truthy v then getitem sin_2t k else getitem sin_t k);
                fm ← setitem (fm w) i s;
                phase_shift ← (if (idx >? 0)%Z then
                                 v ← int val;
                                 Ok (xorb (phase_shift w) (negb (truthy v)))
                               else Ok (phase_shift w));
                let factor := if phase_shift : bool then (-1)%Z else 1%Z in
                k ← mod_ i steps;
                s ← getitem sin_t k;
                pm ← setitem (pm w) i (float_of_int factor * s);
                Ok {| am := am; fm := fm; pm := pm;
                      phase_shift := phase_shift |})
             (range idx_low idx_high) w)
        (enumerate code)
        {| am := repeat_list (float_of_int 0) (Z.of_nat (length t));
           fm := repeat_list (float_of_int 0) (Z.of_nat (length t));
           pm := repeat_list (float_of_int 0) (Z.of_nat (length t));
           phase_shift := false (* Initial shift *) |};
  Ok (t, am w, fm w, pm w).

(** [slow] is the module-level flag set once at import: [true] when numpy
    could not be loaded. *)
Definition waveforms `{Runtime} (slow : bool) (code : list pychar)
  (steps : Z)
  : result (list float * list float * list float * list float) :=
  if slow then _waveforms_native code steps
  else _waveforms_numpy code steps.

End Waveform.

(** ** Vocabulary of the statements *)

Module Spec.
Import Py.

(** The two characters a bit sequence is made of. *)
Definition is_bit (c : pychar) : bool := (c =? chr0)%N || (c =? chr1)%N.

(** The characters [0] to [9]. *)
Definition is_ascii_digit (c : pychar) : bool :=
  (48 <=? c)%N && (c <=? 57)%N.

(** The value of a character among [0] to [9]. *)
Definition digit_value (c : pychar) : N := (c - 48)%N.

(** The [w] low bits of [n], most significant first, as characters. *)
Definition bits_msb_first (w : nat) (n : N) : pystr :=
  map (fun i => if N.testbit n (N.of_nat i) then chr1 else chr0)
      (rev (seq 0 w)).

(** The number a string of binary digits writes (any character but [1]
    counts as a zero). *)
Definition binary_number (bits : pystr) : N :=
  fold_left (fun n b => (2 * n + (if (b =? chr1)%N then 1 else 0))%N) bits 0%N.

(** A sequence cut into pieces of [w] characters (the last one shorter if
    need be), [m] pieces at most. *)
Fixpoint pieces {A} (w m : nat) (l : list A) : list (list A) :=
  match m, l with
  | O, _ | _, [] => []
  | S m', _ :: _ => take w l :: pieces w m' (drop w l)
  end.

(** The characters [int] accepts, and the digit each stands for (0 for
    any other character). *)
Definition is_decimal `{Runtime} (c : pychar) : bool :=
  match decimal_value c with Some _ => true | None => false end.

Definition decimal_or_zero `{Runtime} (c : pychar) : N :=
  match decimal_value c with Some d => d | None => 0%N end.

(** The three forms of input: bits; [a_] and a text without a line feed;
    [d_] and decimal digits. The bits and the payloads are not empty. *)
Definition recognised `{Runtime} (inp : pystr) : Prop :=
  (inp <> [] /\ forallb is_bit inp = true)
  \/ (exists S, inp = str "a_" ++ S /\ S <> []
                /\ forallb (fun c => negb (c =? 10)%N) S = true)
  \/ (exists D, inp = str "d_" ++ D /\ D <> []
                /\ forallb is_decimal D = true).

(** The two samples a backend stores at a position of a cycle whose
    character reads [v], from the point [tk] of its time axis at that
    position: [(v + 1) / 2 * sin(tk * 2 * pi)], and [sin(2 * tk * 2 * pi)]
    or [sin(tk * 2 * pi)], as the source computes them. *)
Definition am_sample `{Runtime} (v : N) (tk : float) : float :=
  (float_of_int (Z.of_N v + 1) / float_of_int 2
   * fsin (tk * float_of_int 2 * fpi))%py.

Definition fm_sample `{Runtime} (v : N) (tk : float) : float :=
  if (v =? 0)%N then fsin (tk * float_of_int 2 * fpi)%py
  else fsin (float_of_int 2 * tk * float_of_int 2 * fpi)%py.

(** The AM and FM arrays [a] and [f] hold those samples at every index
    below [m] that the time axis [t] has. *)
Definition samples_upto `{Runtime} (code : list pychar) (s : nat)
    (t : list float) (m : nat) (a f : list float) : Prop :=
  forall j b v tk,
    (j < m)%nat -> (j < length t)%nat ->
    code !! (j / s)%nat = Some b -> int b = Ok v ->
    t !! (j mod s)%nat = Some tk ->
    a !! j = Some (am_sample v tk) /\ f !! j = Some (fm_sample v tk).

(** The value of bit [i] of a bit sequence (0 past its end). *)
Definition bit_value (code : list pychar) (i : nat) : N :=
  match code !! i with
  | Some b => digit_value b
  | None => 0%N
  end.

Definition zero_bit (code : list pychar) (i : nat) : bool :=
  (bit_value code i =? 0)%N.

(** Sample [k] of the carrier at the base and at the doubled frequency. *)
Definition base (steps : Z) (k : nat) : R :=
  sin (2 * PI * INR k / IZR steps).

Definition doubled (steps : Z) (k : nat) : R :=
  sin (2 * PI * 2 * INR k / IZR steps).

(** The phase parity of cycle [i] when it is updated once per cycle:
    cycle 0 is unshifted, cycle [i] is shifted with respect to cycle
    [i - 1] exactly when bit [i] is a zero. *)
Fixpoint cycle_phase (code : list pychar) (i : nat) : bool :=
  match i with
  | O => false
  | S i' => xorb (cycle_phase code i') (zero_bit code i)
  end.

(** The phase parity at sample [j] when it is updated once per sample:
    every sample of a cycle after the first whose bit is a zero toggles
    it. *)
Fixpoint sample_phase (code : list pychar) (s : nat) (j : nat) : bool :=
  match j with
  | O => false
  | S j' => xorb (sample_phase code s j')
                 ((0 <? j / s)%nat && zero_bit code (j / s))
  end.

(** The factor of a phase parity. *)
Definition factor (shifted : bool) : R :=
  IZR (if shifted then (-1)%Z else 1%Z).

(** Sample [k] of cycle [i] of the three waves; [pm_at] takes the phase
    parity in force. *)
Definition am_at (code : list pychar) (steps : Z) (i k : nat) : R :=
  IZR (Z.of_N (bit_value code i) + 1) / 2 * base steps k.

Definition fm_at (code : list pychar) (steps : Z) (i k : nat) : R :=
  if zero_bit code i then base steps k else doubled steps k.

Definition pm_at (shifted : bool) (steps : Z) (k : nat) : R :=
  factor shifted * base steps k.


(** What a run on [code] with [s] samples per cycle returns, up to the
    phase parity [phase i k] in force at sample [k] of cycle [i]: four
    arrays of [length code * s] values, the time axis [j / s], and the
    three waves cycle by cycle. *)
Definition generated (phase : nat -> nat -> bool) (code : list pychar)
    (s : nat) (r : list R * list R * list R * list R) : Prop :=
  let '(t, am, fm, pm) := r in
  let n := length code in
  let steps := Z.of_nat s in
  (length t = (n * s)%nat /\ length am = (n * s)%nat
   /\ length fm = (n * s)%nat /\ length pm = (n * s)%nat)
  /\ (forall j, (j < n * s)%nat -> t !! j = Some (INR j / IZR steps)%R)
  /\ (forall i k, (i < n)%nat -> (k < s)%nat ->
        am !! (i * s + k)%nat = Some (am_at code steps i k)
        /\ fm !! (i * s + k)%nat = Some (fm_at code steps i k)
        /\ pm !! (i * s + k)%nat = Some (pm_at (phase i k) steps k)).

(** The phase parity each backend works with: [slow] selects the scalar
    backend. *)
Definition backend_phase (slow : bool) (code : list pychar) (s : nat)
  : nat -> nat -> bool :=
  if slow then fun i k => sample_phase code s (i * s + k)
  else fun i _ => cycle_phase code i.

(** The equations of the specification for the AM and the FM wave, read as
    Python reads them in the arithmetic of the runtime: whenever
    [waveforms] returns on a bit sequence with [steps >= 1],
    [am[j] == ((int(bit_i) + 1) / 2) * sin(2 * pi * k / steps)], and
    [fm[j] == sin(2 * pi * 2 * k / steps)] for a 1 bit,
    [fm[j] == sin(2 * pi * k / steps)] for a 0 bit, with [i = j // steps]
    and [k = j % steps]. *)
Definition am_as_specified (rt : Runtime) : Prop :=
  forall (slow : bool) (code : list pychar) (steps : Z)
         (t am fm pm : list float) (j : nat) (b : pychar) (v : N),
    forallb is_bit code = true -> (1 <= steps)%Z ->
    Waveform.waveforms slow code steps = Ok (t, am, fm, pm) ->
    (j < length code * Z.to_nat steps)%nat ->
    code !! (j / Z.to_nat steps)%nat = Some b -> int b = Ok v ->
    am !! j
    = Some (float_of_int (Z.of_N v + 1) / float_of_int 2
            * fsin (float_of_int 2 * fpi
                    * float_of_int (Z.of_nat (j mod Z.to_nat steps))
                    / float_of_int steps))%py.

Definition fm_as_specified (rt : Runtime) : Prop :=
  forall (slow : bool) (code : list pychar) (steps : Z)
         (t am fm pm : list float) (j : nat) (b : pychar),
    forallb is_bit code = true -> (1 <= steps)%Z ->
    Waveform.waveforms slow code steps = Ok (t, am, fm, pm) ->
    (j < length code * Z.to_nat steps)%nat ->
    code !! (j / Z.to_nat steps)%nat = Some b ->
    (b = chr1 ->
     fm !! j
     = Some (fsin (float_of_int 2 * fpi * float_of_int 2
                   * float_of_int (Z.of_nat (j mod Z.to_nat steps))
                   / float_of_int steps))%py)
    /\ (b = chr0 ->
        fm !! j
        = Some (fsin (float_of_int 2 * fpi
                      * float_of_int (Z.of_nat (j mod Z.to_nat steps))
                      / float_of_int steps))%py).


End Spec.

(** * Properties *)

(** ** Matching *)

Section ReFacts.
Import Py Re.
Context `{Runtime}.
Variable fl : flags.

Local Abbreviation matches := (Re.matches fl).

Lemma matches_cons r c s : matches r (c :: s) = matches (deriv fl r c) s.
Proof. reflexivity. Qed.

Lemma matches_Void s : matches Void s = false.
Proof. induction s as [|c s IH]; [reflexivity | exact IH]. Qed.

Lemma matches_Alt r1 r2 s :
  matches (Alt r1 r2) s = matches r1 s || matches r2 s.
Proof.
  revert r1 r2; induction s as [|c s IH]; intros r1 r2; [reflexivity|].
  rewrite !matches_cons; simpl; apply IH.
Qed.

Lemma matches_Cat_Void r s : matches (Cat Void r) s = false.
Proof. induction s as [|c s IH]; [reflexivity | exact IH]. Qed.

Lemma matches_Cat_Eps r s : matches (Cat Eps r) s = matches r s.
Proof.
  destruct s as [|c s]; [reflexivity|].
  rewrite !matches_cons; simpl.
  now rewrite matches_Alt, matches_Cat_Void.
Qed.

Lemma matches_Cat_Atom a r s :
  matches (Cat (Atom a) r) s =
  match s with
  | [] => false
  | c :: s' => atom_matches fl a c && matches r s'
  end.
Proof.
  destruct s as [|c s]; [reflexivity|].
  rewrite matches_cons; simpl.
  destruct (atom_matches fl a c); simpl.
  - apply matches_Cat_Eps.
  - apply matches_Cat_Void.
Qed.

Lemma matches_Star_Atom a s :
  matches (Star (Atom a)) s = forallb (atom_matches fl a) s.
Proof.
  induction s as [|c s IH]; [reflexivity|].
  rewrite matches_cons; simpl.
  destruct (atom_matches fl a c); simpl.
  - now rewrite matches_Cat_Eps.
  - apply matches_Cat_Void.
Qed.

Lemma matches_Plus_Atom a s :
  matches (Plus (Atom a)) s =
  match s with
  | [] => false
  | c :: s' => atom_matches fl a c && forallb (atom_matches fl a) s'
  end.
Proof.
  unfold Plus; rewrite matches_Cat_Atom.
  destruct s as [|c s]; [reflexivity|].
  now rewrite matches_Star_Atom.
Qed.

End ReFacts.

(** ** The three patterns *)

Section Patterns.
Import Py Re Gui Spec.
Context `{Runtime}.

Lemma forallb_pointwise {A} (f g : A -> bool) l :
  (forall x, f x = g x) -> forallb f l = forallb g l.
Proof. intros E; induction l as [|x l IH]; simpl; [|rewrite E, IH]; reflexivity. Qed.

Lemma fullmatch_binary s :
  fullmatch _BINARY_PATTERN s =
  match s with [] => false | c :: s' => is_bit c && forallb is_bit s' end.
Proof.
  unfold fullmatch; simpl.
  rewrite matches_Plus_Atom.
  destruct s as [|c s]; [reflexivity|].
  assert (E : forall x, atom_matches no_flags (OneOf [chr0; chr1]) x = is_bit x).
  { intros x; unfold is_bit; simpl. now rewrite orb_false_r. }
  rewrite E. f_equal. apply forallb_pointwise, E.
Qed.

Lemma fullmatch_ascii s :
  fullmatch _ASCII_PATTERN s =
  match s with
  | a :: u :: c :: s' =>
      (a =? 97)%N && ((u =? 95)%N &&
        (negb (c =? 10)%N && forallb (fun x => negb (x =? 10)%N) s'))
  | _ => false
  end.
Proof.
  unfold fullmatch; simpl.
  rewrite matches_Cat_Atom.
  destruct s as [|a s]; [reflexivity|].
  rewrite matches_Cat_Atom.
  destruct s as [|u s]; [simpl; now rewrite andb_false_r|].
  rewrite matches_Plus_Atom.
  destruct s as [|c s]; [simpl; now rewrite !andb_false_r|].
  reflexivity.
Qed.

Lemma fullmatch_decimal s :
  fullmatch _DECIMAL_PATTERN s =
  match s with
  | d :: u :: c :: s' =>
      (d =? 100)%N && ((u =? 95)%N &&
        (atom_matches no_flags Digit c
         && forallb (atom_matches no_flags Digit) s'))
  | _ => false
  end.
Proof.
  unfold fullmatch; simpl.
  rewrite matches_Cat_Atom.
  destruct s as [|a s]; [reflexivity|].
  rewrite matches_Cat_Atom.
  destruct s as [|u s]; [simpl; now rewrite andb_false_r|].
  rewrite matches_Plus_Atom.
  destruct s as [|c s]; [simpl; now rewrite !andb_false_r|].
  reflexivity.
Qed.

Lemma decimal_value_ascii_digit c :
  is_ascii_digit c = true -> decimal_value c = Some (c - 48)%N.
Proof. unfold is_ascii_digit, decimal_value; now intros ->. Qed.

Lemma int_ascii_digit c :
  is_ascii_digit c = true -> int c = Ok (c - 48)%N.
Proof. intros Hc; unfold int; now rewrite decimal_value_ascii_digit. Qed.

Lemma digit_matches_ascii_digit c :
  is_ascii_digit c = true -> atom_matches no_flags Digit c = true.
Proof. intros Hc; simpl; now rewrite decimal_value_ascii_digit. Qed.

Lemma is_bit_ascii_digit c : is_bit c = true -> is_ascii_digit c = true.
Proof.
  unfold is_bit, is_ascii_digit, chr0, chr1; intros Hc.
  apply orb_true_iff in Hc as [Hc|Hc]; apply N.eqb_eq in Hc; now subst c.
Qed.

Lemma int_bit c : is_bit c = true -> int c = Ok (digit_value c).
Proof. intros Hc; now apply int_ascii_digit, is_bit_ascii_digit. Qed.

Lemma valid_bit_lookup (code : list pychar) i b :
  forallb is_bit code = true -> code !! i = Some b -> is_bit b = true.
Proof.
  revert i; induction code as [|c code IH]; intros i Hcode Hi; [easy|].
  simpl in Hcode; apply andb_true_iff in Hcode as [Hc Hcode].
  destruct i as [|i]; simpl in Hi.
  - now injection Hi as <-.
  - now apply (IH i).
Qed.

Lemma bit_value_lookup (code : list pychar) i b :
  code !! i = Some b -> bit_value code i = digit_value b.
Proof. unfold bit_value; now intros ->. Qed.

End Patterns.

(** ** The parser *)

Section Parser.
Import Py Re Gui Spec.
Context `{Runtime}.

Lemma format_b_4_digit d :
  (d < 10)%N -> format_b 4 d = bits_msb_first 4 d.
Proof.
  intros Hd.
  assert (Hc : In d (map N.of_nat (seq 0 10))).
  { apply in_map_iff; exists (N.to_nat d); split; [lia|].
    apply in_seq; lia. }
  simpl in Hc.
  repeat (destruct Hc as [<-|Hc]; [reflexivity|]); destruct Hc.
Qed.

Lemma ascii_digit_value c :
  is_ascii_digit c = true -> (digit_value c < 10)%N.
Proof.
  unfold is_ascii_digit, digit_value; intros Hc.
  apply andb_true_iff in Hc as [H1 H2].
  apply N.leb_le in H1, H2; lia.
Qed.

(** The BCD loop: one nibble per digit, appended in input order. *)
Lemma bcd_loop D acc :
  forallb is_ascii_digit D = true ->
  foldM (fun bit_string i => d ← int i; Ok (bit_string ++ format_b 4 d)) D acc
  = Ok (acc ++ concat (map (fun c => bits_msb_first 4 (digit_value c)) D)).
Proof.
  revert acc; induction D as [|c D IH]; intros acc HD; simpl.
  - now rewrite app_nil_r.
  - simpl in HD; apply andb_true_iff in HD as [Hc HD].
    rewrite (int_ascii_digit c Hc); simpl.
    rewrite (IH _ HD), <- app_assoc.
    fold (digit_value c).
    now rewrite (format_b_4_digit _ (ascii_digit_value c Hc)).
Qed.

(** The ASCII loop: [format_b 7] of every code point, in input order. *)
Lemma ascii_loop (S : pystr) acc :
  fold_left (fun bit_string i => bit_string ++ format_b 7 (ord i)) S acc
  = acc ++ concat (map (format_b 7) S).
Proof.
  revert acc; induction S as [|c S IH]; intros acc; simpl.
  - now rewrite app_nil_r.
  - now rewrite IH, <- app_assoc.
Qed.

(** What the ASCII branch does with any payload free of newlines: no
    character is refused, none is cut. *)
Lemma evaluate_input_ascii (S : pystr) :
  S <> [] -> forallb (fun x => negb (x =? 10)%N) S = true ->
  _evaluate_input (str "a_" ++ S) = Ok (concat (map (format_b 7) S)).
Proof.
  intros HS Hnl; destruct S as [|c S]; [easy|].
  unfold _evaluate_input.
  rewrite fullmatch_binary, fullmatch_ascii; simpl app.
  simpl in Hnl; cbn [is_bit N.eqb chr0 chr1 orb andb].
  rewrite Hnl; simpl.
  now rewrite ascii_loop.
Qed.

Lemma pos_bits_length p : length (pos_bits p) = Pos.to_nat (Pos.size p).
Proof.
  induction p as [p IH|p IH|]; simpl; [| |reflexivity];
    rewrite length_app, IH; simpl; lia.
Qed.

(** A code point above 127 takes more than seven characters. *)
Lemma format_b_7_wide c : (128 <= c)%N -> (7 < length (format_b 7 c))%nat.
Proof.
  intros Hc; destruct c as [|p]; [lia|].
  unfold format_b; rewrite length_app, pos_bits_length.
  assert (Hp : (8 <= Pos.size p)%positive).
  { do 7 (destruct p as [p|p|]; [| |lia]); simpl; lia. }
  lia.
Qed.

End Parser.

(** ** Loops, indices and slices *)

Section PyFacts.
Import Py.

(** A loop that keeps an invariant, indexed by the number of turns done,
    runs to its end without raising and ends in the invariant. *)
Lemma foldM_invariant {S A} (body : S -> A -> result S)
    (I : nat -> S -> Prop) (l : list A) (s0 : S) :
  I 0%nat s0 ->
  (forall k a s, l !! k = Some a -> I k s ->
                 exists s', body s a = Ok s' /\ I (Datatypes.S k) s') ->
  exists s', foldM body l s0 = Ok s' /\ I (length l) s'.
Proof.
  revert I s0; induction l as [|a l IH]; intros I s0 H0 Hstep; simpl.
  - now exists s0.
  - destruct (Hstep 0%nat a s0 eq_refl H0) as (s1 & -> & H1); simpl.
    apply (IH (fun k => I (Datatypes.S k)) s1 H1).
    intros k b s Hk; apply (Hstep (Datatypes.S k) b s Hk).
Qed.


Lemma index_in_range (len k : nat) :
  (k < len)%nat -> index len (Z.of_nat k) = Some k.
Proof.
  intros Hk; unfold index.
  destruct (Z.ltb_spec (Z.of_nat k) 0) as [Hneg|_]; [lia|].
  destruct (Z.leb_spec 0 (Z.of_nat k)) as [_|Hneg]; [|lia].
  destruct (Z.ltb_spec (Z.of_nat k) (Z.of_nat len)) as [_|Hge]; [|lia].
  simpl; now rewrite Nat2Z.id.
Qed.

Lemma getitem_in_range {A} (l : list A) (k : nat) (a : A) :
  l !! k = Some a -> getitem l (Z.of_nat k) = Ok a.
Proof.
  intros Hk; unfold getitem.
  rewrite index_in_range by (eapply lookup_lt_Some; eassumption).
  now rewrite Hk.
Qed.

Lemma setitem_in_range {A} (l : list A) (k : nat) (a : A) :
  (k < length l)%nat -> setitem l (Z.of_nat k) a = Ok (<[k := a]> l).
Proof. intros Hk; unfold setitem; now rewrite index_in_range. Qed.

Lemma range_length lo hi : length (range lo hi) = Z.to_nat (hi - lo).
Proof. apply length_seqZ. Qed.

Lemma range_lookup lo hi (k : nat) (i : Z) :
  range lo hi !! k = Some i -> i = (lo + Z.of_nat k)%Z /\ (i < hi)%Z.
Proof. unfold range; rewrite lookup_seqZ; lia. Qed.


Lemma enumerate_length {A} (l : list A) : length (enumerate l) = length l.
Proof. apply length_imap. Qed.

Lemma enumerate_lookup {A} (l : list A) (k : nat) (i : Z) (a : A) :
  enumerate l !! k = Some (i, a) -> i = Z.of_nat k /\ l !! k = Some a.
Proof.
  unfold enumerate; rewrite list_lookup_imap.
  destruct (l !! k) as [b|]; simpl; [|discriminate].
  now intros [= <- <-].
Qed.

Lemma bound_nonneg (len : nat) (k : nat) :
  bound len (Z.of_nat k) = Nat.min k len.
Proof.
  unfold bound.
  destruct (Z.ltb_spec (Z.of_nat k) 0) as [Hneg|_]; [lia|].
  now rewrite Nat2Z.id.
Qed.

Lemma slice_to_nonneg {A} (l : list A) (k : nat) :
  slice_to l (Z.of_nat k) = take k l.
Proof.
  unfold slice_to; rewrite bound_nonneg.
  destruct (Nat.le_ge_cases k (length l)) as [Hle|Hge].
  - now rewrite Nat.min_l.
  - rewrite Nat.min_r by assumption. now rewrite !take_ge by lia.
Qed.


Lemma repeat_list_length {A} (x : A) (k : Z) :
  length (repeat_list x k) = Z.to_nat k.
Proof. apply length_replicate. Qed.

Lemma truediv_nonzero `{Runtime} a b :
  b <> 0%Z -> truediv a b = Ok (ftruediv a b).
Proof.
  intros Hb; unfold truediv.
  now destruct (Z.eqb_spec b 0).
Qed.

Lemma mod_nonzero a b : b <> 0%Z -> mod_ a b = Ok (a mod b)%Z.
Proof.
  intros Hb; unfold mod_.
  now destruct (Z.eqb_spec b 0).
Qed.

Lemma slice_to_full {A} (l : list A) (k : nat) :
  length l = k -> slice_to l (Z.of_nat k) = l.
Proof. intros Hl; rewrite slice_to_nonneg; apply take_ge; lia. Qed.

(** Position [k] of cycle [i] is sample [i * s + k]. *)
Lemma sample_cycle (s i k : nat) :
  (k < s)%nat -> ((i * s + k) / s = i /\ (i * s + k) mod s = k)%nat.
Proof.
  intros Hk; split.
  - rewrite Nat.div_add_l by lia. rewrite Nat.div_small by lia. lia.
  - rewrite Nat.add_comm, Nat.Div0.mod_add. now apply Nat.mod_small.
Qed.

Lemma sample_split (s j : nat) :
  (0 < s)%nat -> (j = (j / s) * s + j mod s /\ j mod s < s)%nat.
Proof.
  intros Hs; split.
  - rewrite Nat.mul_comm. apply Nat.div_mod_eq.
  - apply Nat.mod_upper_bound; lia.
Qed.

End PyFacts.

(** ** Claims about the parser *)

Section ParserClaims.
Import Py Re Gui Spec.

(** C9: on a non-empty string made only of the characters 0 and 1,
    [_evaluate_input] succeeds and returns the characters of the input
    themselves, in order. *)
Theorem binary_input_is_its_own_bits `{Runtime} (s : pystr) :
  s <> [] -> forallb is_bit s = true -> _evaluate_input s = Ok (tuple s).
Proof.
  intros Hs Hbits; destruct s as [|c s]; [easy|].
  unfold _evaluate_input; rewrite fullmatch_binary.
  simpl in Hbits; now rewrite Hbits.
Qed.

Lemma binary_input_is_its_own_bits_witness :
  str "0110" <> [] /\ forallb is_bit (str "0110") = true /\
  @_evaluate_input plain_runtime (str "0110") = Ok (str "0110").
Proof.
  split; [discriminate|]; split; [reflexivity|].
  apply (@binary_input_is_its_own_bits plain_runtime (str "0110"));
    [discriminate | reflexivity].
Defined.

(** C8: on [d_] followed by one or more of the characters 0 to 9,
    [_evaluate_input] succeeds and returns, in input order, the four bits
    (most significant first, zero-padded) of each digit taken on its own;
    [d_9] gives 1001 and [d_12] gives 0001 0010. *)
Theorem bcd_input_is_nibble_per_digit `{Runtime} (D : pystr) :
  D <> [] -> forallb is_ascii_digit D = true ->
  _evaluate_input (str "d_" ++ D)
  = Ok (concat (map (fun c => bits_msb_first 4 (digit_value c)) D))
  /\ _evaluate_input (str "d_9") = Ok (str "1001")
  /\ _evaluate_input (str "d_12") = Ok (str "00010010").
Proof.
  assert (G : forall D : pystr, D <> [] -> forallb is_ascii_digit D = true ->
              _evaluate_input (str "d_" ++ D)
              = Ok (concat (map (fun c => bits_msb_first 4 (digit_value c)) D))).
  { clear D; intros D HD Hdig; destruct D as [|c D]; [easy|].
    unfold _evaluate_input.
    rewrite fullmatch_binary, fullmatch_ascii, fullmatch_decimal; simpl app.
    cbn [is_bit N.eqb chr0 chr1 orb andb Pos.eqb].
    pose proof Hdig as Hdig'; simpl in Hdig'.
    apply andb_true_iff in Hdig' as [Hc HD'].
    rewrite (digit_matches_ascii_digit c Hc).
    assert (Hall : forallb (atom_matches no_flags Digit) D = true).
    { apply forallb_forall; intros x Hx.
      apply digit_matches_ascii_digit.
      now apply (proj1 (forallb_forall _ _) HD'). }
    rewrite Hall; cbn [andb drop].
    now rewrite (bcd_loop (c :: D) [] Hdig). }
  intros HD Hdig; split; [now apply G|]; split.
  - exact (G (str "9") ltac:(discriminate) eq_refl).
  - exact (G (str "12") ltac:(discriminate) eq_refl).
Qed.

Lemma bcd_input_is_nibble_per_digit_witness :
  str "2020" <> [] /\ forallb is_ascii_digit (str "2020") = true /\
  @_evaluate_input plain_runtime (str "d_2020") = Ok (str "0010000000100000").
Proof.
  split; [discriminate|]; split; [reflexivity|].
  apply (@bcd_input_is_nibble_per_digit plain_runtime (str "2020"));
    [discriminate | reflexivity].
Defined.

(** C4, at an input it covers: [a_] followed by the single character
    U+00E9 (code point 233) is accepted, and eight bits come out for that
    one character. *)
Theorem non_ascii_character_is_accepted `{Runtime} :
  _evaluate_input (str "a_" ++ [233%N]) = Ok (str "11101001")
  /\ length (str "11101001") = 8%nat.
Proof. split; reflexivity. Qed.

End ParserClaims.

(** ** Exact arithmetic *)

(** Reads the arithmetic of [exact_runtime] as the arithmetic of [R]. *)
Ltac exact_arith :=
  repeat match goal with
         | x := Py.exact_runtime _ _ |- _ => progress unfold x in *
         end;
  cbn [Py.exact_runtime Py.float Py.float_of_int Py.ftruediv Py.fadd Py.fsub
       Py.fmul
       Py.fdiv Py.fis_zero Py.fsin Py.fpi Py.fceil Py.uninitialized] in *.

Section ExactFacts.
Import Py Spec Waveform.
Open Scope R_scope.

Lemma bind_Ok {A B} (a : A) (k : A -> result B) : (Ok a ≫= k) = k a.
Proof. reflexivity. Qed.

Lemma Zceil_IZR (z : Z) : Zceil (IZR z) = z.
Proof. unfold Zceil; rewrite ZfloorNZ; lia. Qed.

Lemma INR_steps_nonzero (s : nat) : (0 < s)%nat -> IZR (Z.of_nat s) <> 0.
Proof. intros Hs; apply not_0_IZR; lia. Qed.

Lemma step_nonzero (steps : Z) : steps <> 0%Z -> IZR 1 / IZR steps <> 0.
Proof.
  intros Hs; unfold Rdiv; rewrite Rmult_1_l.
  now apply Rinv_neq_0_compat, not_0_IZR.
Qed.

End ExactFacts.

(** ** The vectorised backend *)

Section NumpyFacts.
Import Py Spec Waveform.
Variable digits : pychar -> option N.
Variable garbage : nat -> nat -> R.
Let rt : Runtime := exact_runtime digits garbage.
Local Existing Instance rt.
Open Scope R_scope.

(** With step [1 / s] the time axis has [n * s] points, [j / s] at
    index [j]. *)
Lemma arange_exact (n s : nat) :
  (0 < s)%nat ->
  exists t : list float,
    Np.arange 0 (Z.of_nat n) (ftruediv 1 (Z.of_nat s))
    = Ok t
    /\ length t = (n * s)%nat
    /\ forall j, (j < n * s)%nat -> t !! j = Some (INR j / IZR (Z.of_nat s)).
Proof.
  intros Hs; unfold Np.arange; exact_arith.
  destruct (Req_dec_T (1 / IZR (Z.of_nat s)) 0) as [E|_];
    [now apply step_nonzero in E; [|lia]|].
  replace (IZR (Z.of_nat n - 0) / (1 / IZR (Z.of_nat s)))
    with (IZR (Z.of_nat (n * s))).
  2:{ rewrite Z.sub_0_r, Nat2Z.inj_mul, mult_IZR; field.
      now apply INR_steps_nonzero. }
  rewrite Zceil_IZR, Nat2Z.id.
  eexists; split; [reflexivity|]; split.
  - now rewrite length_fmap, length_seq.
  - intros j Hj; rewrite list_lookup_fmap, lookup_seq_lt by assumption.
    simpl; f_equal; rewrite <- INR_IZR_INZ; field.
    now apply INR_steps_nonzero.
Qed.

(** The slice of cycle [idx], assigned from a source of one cycle. *)
Lemma set_slice_cycle {A} (a src : list A) (n s idx : nat) :
  length a = (n * s)%nat -> (idx < n)%nat -> length src = s ->
  exists a',
    Np.set_slice a (Z.of_nat idx * Z.of_nat s)
                   ((Z.of_nat idx + 1) * Z.of_nat s) src = Ok a'
    /\ length a' = (n * s)%nat
    /\ (forall j, (j < idx * s)%nat -> a' !! j = a !! j)
    /\ (forall k, (k < s)%nat -> a' !! (idx * s + k)%nat = src !! k).
Proof.
  intros Ha Hidx Hsrc; unfold Np.set_slice.
  replace (Z.of_nat idx * Z.of_nat s)%Z with (Z.of_nat (idx * s)) by lia.
  replace ((Z.of_nat idx + 1) * Z.of_nat s)%Z
    with (Z.of_nat (idx * s + s)) by lia.
  rewrite !bound_nonneg, Ha.
  rewrite (Nat.min_l (idx * s)), (Nat.min_l (idx * s + s)) by nia.
  replace (idx * s + s - idx * s)%nat with s by lia.
  rewrite Hsrc, Nat.eqb_refl.
  assert (Htake : length (take (idx * s) a) = (idx * s)%nat)
    by (rewrite length_take; nia).
  eexists; split; [reflexivity|]; split; [|split].
  - rewrite !length_app, Htake, length_drop, Hsrc, Ha; nia.
  - intros j Hj.
    rewrite lookup_app_l by (rewrite Htake; lia).
    now apply lookup_take_lt.
  - intros k Hk.
    rewrite lookup_app_r by (rewrite Htake; lia).
    rewrite Htake, lookup_app_l by lia.
    f_equal; lia.
Qed.

(** The two base curves of the vectorised backend. *)
Lemma numpy_tables (n s : nat) (t : list float) :
  (0 < n)%nat -> (0 < s)%nat -> length t = (n * s)%nat ->
  (forall j, (j < n * s)%nat -> t !! j = Some (INR j / IZR (Z.of_nat s))) ->
  let sin_t :=
    Np.sin (Np.mul (Np.mul (slice_to t (Z.of_nat s)) (float_of_int 2)) fpi) in
  let sin_2t :=
    Np.sin (Np.mul (Np.mul (Np.rmul (float_of_int 2) (slice_to t (Z.of_nat s)))
                           (float_of_int 2)) fpi) in
  length sin_t = s /\ length sin_2t = s
  /\ forall k, (k < s)%nat ->
       sin_t !! k = Some (base (Z.of_nat s) k)
       /\ sin_2t !! k = Some (doubled (Z.of_nat s) k).
Proof.
  intros Hn Hs Lt Ht sin_t sin_2t.
  assert (Lslice : length (slice_to t (Z.of_nat s)) = s)
    by (rewrite slice_to_nonneg, length_take, Lt; nia).
  unfold sin_t, sin_2t, Np.sin, Np.mul, Np.rmul.
  rewrite !length_fmap; split; [exact Lslice|]; split; [exact Lslice|].
  intros k Hk.
  rewrite !list_lookup_fmap, slice_to_nonneg, lookup_take_lt by assumption.
  exact_arith; rewrite Ht by nia; simpl.
  unfold base, doubled; split; do 2 f_equal; field;
    now apply INR_steps_nonzero.
Qed.

(** The vectorised backend in exact arithmetic, on a bit sequence and a
    positive number of samples per cycle: it returns, and its phase parity
    is the one updated once per cycle. *)
Lemma numpy_run (code : list pychar) (s : nat) :
  forallb is_bit code = true -> (0 < s)%nat ->
  exists r, _waveforms_numpy code (Z.of_nat s) = Ok r
    /\ generated (fun i _ => cycle_phase code i) code s r.
Proof.
  intros Hcode Hs. unfold _waveforms_numpy.
  rewrite truediv_nonzero by lia. rewrite bind_Ok.
  set (n := length code).
  destruct (arange_exact n s Hs) as (t & -> & Lt & Ht); rewrite bind_Ok.
  pose proof (fun Hn => numpy_tables n s t Hn Hs Lt Ht) as Ktab.
  cbv zeta in Ktab.
  match type of Ktab with
  | _ -> length ?a = _ /\ length ?b = _ /\ _ =>
      remember a as sin_t eqn:Esin; remember b as sin_2t eqn:Esin2
  end.
  clear Esin Esin2.
  match goal with |- context [foldM ?b ?l ?s0] => set (body := b); set (w0 := s0) end.
  pose (I := fun (idx : nat) (w : waves) =>
     (length (am w) = (n * s)%nat /\ length (fm w) = (n * s)%nat
      /\ length (pm w) = (n * s)%nat)
     /\ phase_shift w = cycle_phase code (idx - 1)
     /\ forall i k, (i < idx)%nat -> (k < s)%nat ->
          am w !! (i * s + k)%nat = Some (am_at code (Z.of_nat s) i k)
          /\ fm w !! (i * s + k)%nat = Some (fm_at code (Z.of_nat s) i k)
          /\ pm w !! (i * s + k)%nat = Some (pm_at (cycle_phase code i) (Z.of_nat s) k)).
  destruct (foldM_invariant body I (enumerate code) w0) as (w & Ew & Iw).
  { repeat split; simpl; try (unfold Np.empty_like; rewrite length_imap; exact Lt).
    intros; lia. intros; lia. intros; lia. }
  { intros idx [i val] w Hlook ((Lam & Lfm & Lpm) & Hph & Hold).
    apply enumerate_lookup in Hlook as [-> Hval].
    assert (Hidx : (idx < n)%nat) by (eapply lookup_lt_Some; eassumption).
    assert (Hn : (0 < n)%nat) by lia.
    destruct (Ktab Hn) as (Lsin & Lsin2 & Ktab').
    assert (Ksin : forall k, (k < s)%nat -> sin_t !! k = Some (base (Z.of_nat s) k))
      by (intros k Hk; apply (Ktab' k Hk)).
    assert (Ksin2 : forall k, (k < s)%nat ->
                               sin_2t !! k = Some (doubled (Z.of_nat s) k))
      by (intros k Hk; apply (Ktab' k Hk)).
    pose proof (valid_bit_lookup code idx val Hcode Hval) as Hbit.
    pose proof (bit_value_lookup code idx val Hval) as Hv.
    unfold body; cbv beta iota.
    rewrite (int_bit val Hbit), <- Hv, !bind_Ok.
    rewrite ?(slice_to_full sin_t s Lsin), ?(slice_to_full sin_2t s Lsin2).
    destruct (set_slice_cycle (am w)
                (Np.rmul (float_of_int (Z.of_N (bit_value code idx) + 1)
                          / float_of_int 2)%py sin_t)
                n s idx Lam Hidx) as (am' & -> & Lam' & Oam & Nam).
    { unfold Np.rmul; now rewrite length_fmap. }
    rewrite !bind_Ok.
    rewrite ?(slice_to_full sin_t s Lsin), ?(slice_to_full sin_2t s Lsin2).
    destruct (set_slice_cycle (fm w)
                (if truthy (bit_value code idx) then sin_2t else sin_t)
                n s idx Lfm Hidx) as (fm' & -> & Lfm' & Ofm & Nfm).
    { now destruct (truthy _). }
    rewrite bind_Ok.
    assert (Ephase :
      (if (Z.of_nat idx >? 0)%Z
       then Ok (xorb (phase_shift w) (negb (truthy (bit_value code idx))))
       else Ok (phase_shift w)) = Ok (cycle_phase code idx)).
    { destruct idx as [|idx'].
      - simpl; now rewrite Hph.
      - rewrite Z.gtb_ltb.
        destruct (Z.ltb_spec 0 (Z.of_nat (S idx'))) as [_|Hneg]; [|lia].
        rewrite Hph; simpl; rewrite Nat.sub_0_r.
        unfold truthy, zero_bit; now rewrite negb_involutive. }
    rewrite Ephase, bind_Ok.
    rewrite ?(slice_to_full sin_t s Lsin).
    destruct (set_slice_cycle (pm w)
                (Np.rmul (float_of_int
                            (if cycle_phase code idx then (-1)%Z else 1%Z))
                         sin_t)
                n s idx Lpm Hidx) as (pm' & -> & Lpm' & Opm & Npm).
    { unfold Np.rmul; now rewrite length_fmap. }
    rewrite bind_Ok.
    eexists; split; [reflexivity|]; unfold I; simpl.
    split; [now repeat split|]; split; [f_equal; lia|].
    intros i k Hi Hk.
    destruct (Nat.eq_dec i idx) as [->|Hne].
    - rewrite Nam, Nfm, Npm by assumption.
      unfold Np.rmul; rewrite !list_lookup_fmap; exact_arith.
      rewrite (Ksin k Hk); simpl.
      split; [reflexivity|]; split; [|reflexivity].
      unfold fm_at, truthy, zero_bit.
      destruct (bit_value code idx =? 0)%N; simpl; auto.
    - rewrite Oam, Ofm, Opm by nia.
      apply Hold; lia. }
  rewrite Ew, bind_Ok; eexists; split; [reflexivity|].
  rewrite enumerate_length in Iw.
  destruct Iw as (Hlen & _ & Hall).
  split; [now split|]; split; [exact Ht|exact Hall].
Qed.

End NumpyFacts.

(** ** The scalar backend *)

Section NativeFacts.
Import Py Spec Waveform.
Variable digits : pychar -> option N.
Variable garbage : nat -> nat -> R.
Let rt : Runtime := exact_runtime digits garbage.
Local Existing Instance rt.
Open Scope R_scope.

(** The time axis, built by repeated addition of the step width. *)
Lemma native_time (L s : nat) :
  (0 < s)%nat ->
  exists t : list float,
    foldM (fun t idx =>
             prev ← getitem t (idx - 1);
             setitem t idx
               (prev + ftruediv 1 (Z.of_nat s))%py)
          (range 1 (Z.of_nat L)) (replicate L (float_of_int 0)) = Ok t
    /\ length t = L
    /\ forall j, (j < L)%nat -> t !! j = Some (INR j / IZR (Z.of_nat s)).
Proof.
  intros Hs; exact_arith.
  pose (I := fun (k : nat) (t : list R) =>
    length t = L /\
    forall j, (j <= k)%nat -> (j < L)%nat ->
              t !! j = Some (INR j / IZR (Z.of_nat s))).
  match goal with |- context [foldM ?b _ _] => set (body := b) end.
  destruct (foldM_invariant body I (range 1 (Z.of_nat L)) (replicate L 0))
    as (t & Et & Lt & Ht).
  - split; [apply length_replicate|].
    intros j Hj HL; replace j with 0%nat by lia.
    rewrite lookup_replicate_2 by lia.
    f_equal; simpl; field. now apply INR_steps_nonzero.
  - intros k idx t Hidx [Lt Ht].
    apply range_lookup in Hidx as [-> Hlt].
    unfold body.
    replace (1 + Z.of_nat k - 1)%Z with (Z.of_nat k) by lia.
    rewrite (getitem_in_range t k _ (Ht k (le_n k) ltac:(lia))), bind_Ok.
    replace (1 + Z.of_nat k)%Z with (Z.of_nat (S k)) by lia.
    rewrite setitem_in_range by lia.
    eexists; split; [reflexivity|]; split; [now rewrite length_insert|].
    intros j Hj HL.
    destruct (Nat.eq_dec j (S k)) as [->|Hne].
    + rewrite list_lookup_insert_eq by lia.
      f_equal; rewrite S_INR; field. now apply INR_steps_nonzero.
    + rewrite list_lookup_insert_ne by lia. apply Ht; lia.
  - exists t; split; [exact Et|]; split; [exact Lt|].
    intros j Hj; apply Ht; [|assumption].
    rewrite range_length; lia.
Qed.

(** The two base curves, filled sample by sample. *)
Lemma native_tables (t : list float) (n s : nat) :
  (0 < s)%nat -> length t = (n * s)%nat ->
  (forall j, (j < n * s)%nat -> t !! j = Some (INR j / IZR (Z.of_nat s))) ->
  exists sin_t sin_2t : list float,
    foldM (fun '(sin_t, sin_2t) '(idx, t_i) =>
             sin_t ← setitem sin_t idx (fsin (t_i * float_of_int 2 * fpi)%py);
             sin_2t ← setitem sin_2t idx
                        (fsin (float_of_int 2 * t_i * float_of_int 2 * fpi)%py);
             Ok (sin_t, sin_2t))
          (enumerate (slice_to t (Z.of_nat s)))
          (repeat_list (float_of_int 0) (Z.of_nat s),
           repeat_list (float_of_int 0) (Z.of_nat s))
    = Ok (sin_t, sin_2t)
    /\ length sin_t = s /\ length sin_2t = s
    /\ ((0 < n)%nat -> forall k, (k < s)%nat ->
          sin_t !! k = Some (base (Z.of_nat s) k)
          /\ sin_2t !! k = Some (doubled (Z.of_nat s) k)).
Proof.
  intros Hs Lt Ht; exact_arith.
  pose (I := fun (k : nat) (st : list R * list R) =>
    length st.1 = s /\ length st.2 = s /\
    forall j, (j < k)%nat ->
              st.1 !! j = Some (base (Z.of_nat s) j)
              /\ st.2 !! j = Some (doubled (Z.of_nat s) j)).
  match goal with |- context [foldM ?b ?l ?s0] => set (body := b) end.
  destruct (foldM_invariant body I (enumerate (slice_to t (Z.of_nat s)))
              (repeat_list 0 (Z.of_nat s), repeat_list 0 (Z.of_nat s)))
    as ([sin_t sin_2t] & E & La & Lb & Hab).
  - unfold I; simpl; rewrite repeat_list_length, Nat2Z.id.
    repeat split; lia.
  - intros k [idx t_k] [a b] Hk (La & Lb & Hab); simpl in La, Lb, Hab.
    apply enumerate_lookup in Hk as [-> Hk].
    rewrite slice_to_nonneg in Hk.
    apply lookup_take_Some in Hk as [Hk Hks].
    assert (HkL : (k < n * s)%nat) by (rewrite <- Lt; eapply lookup_lt_Some; eassumption).
    rewrite (Ht k HkL) in Hk; injection Hk as <-.
    unfold body; simpl.
    rewrite !setitem_in_range by lia; simpl.
    eexists; split; [reflexivity|]; unfold I; simpl.
    rewrite !length_insert; split; [assumption|]; split; [assumption|].
    intros j Hj.
    destruct (Nat.eq_dec j k) as [->|Hne].
    + rewrite !list_lookup_insert_eq by lia.
      unfold base, doubled; split; do 2 f_equal; field;
        now apply INR_steps_nonzero.
    + rewrite !list_lookup_insert_ne by lia. apply Hab; lia.
  - exists sin_t, sin_2t; simpl in *.
    split; [exact E|]; split; [exact La|]; split; [exact Lb|].
    intros Hn k Hk; apply Hab.
    rewrite enumerate_length, slice_to_nonneg, length_take, Lt; nia.
Qed.

Lemma sample_phase_S code s j :
  sample_phase code s (S j) =
  xorb (sample_phase code s j)
       ((0 <? S j / s)%nat && zero_bit code (S j / s)).
Proof. reflexivity. Qed.

(** One more sample: the parity toggles when the sample lies in a cycle
    after the first whose bit is a zero. *)
Lemma sample_phase_step code (s idx k : nat) :
  (k < s)%nat ->
  sample_phase code s (idx * s + k) =
  xorb (sample_phase code s (idx * s + k - 1))
       ((0 <? idx)%nat && zero_bit code idx).
Proof.
  intros Hk; pose proof (sample_cycle s idx k Hk) as [Hdiv _].
  destruct (idx * s + k)%nat as [|m] eqn:E.
  - assert (idx = 0)%nat as -> by nia. reflexivity.
  - rewrite sample_phase_S, Hdiv; simpl; now rewrite Nat.sub_0_r.
Qed.

(** The scalar backend, on a bit sequence and a positive number of samples
    per cycle: it returns, and its phase parity is the one updated once
    per sample. *)
Lemma native_run (code : list pychar) (s : nat) :
  forallb is_bit code = true -> (0 < s)%nat ->
  exists r, _waveforms_native code (Z.of_nat s) = Ok r
    /\ generated (fun i k => sample_phase code s (i * s + k)) code s r.
Proof.
  intros Hcode Hs; unfold _waveforms_native.
  set (n := length code).
  rewrite truediv_nonzero by lia; rewrite bind_Ok.
  assert (E0 : repeat_list (float_of_int 0) (Z.of_nat s * Z.of_nat n)
               = replicate (n * s) (float_of_int 0))
    by (unfold repeat_list; f_equal; lia).
  rewrite !E0, length_replicate.
  destruct (native_time (n * s) s Hs) as (t & -> & Lt & Ht); rewrite bind_Ok.
  destruct (native_tables t n s Hs Lt Ht)
    as (sin_t & sin_2t & -> & Lsin & Lsin2 & Htab); rewrite bind_Ok.
  rewrite Lt.
  match goal with |- context [foldM ?b (enumerate code) ?init] =>
    set (body := b); set (w0 := init) end.
  pose (P := fun (m : nat) (w : waves) =>
    (length (am w) = (n * s)%nat /\ length (fm w) = (n * s)%nat
     /\ length (pm w) = (n * s)%nat)
    /\ phase_shift w = sample_phase code s (m - 1)
    /\ forall j, (j < m)%nat ->
         am w !! j = Some (am_at code (Z.of_nat s) (j / s) (j mod s))
         /\ fm w !! j = Some (fm_at code (Z.of_nat s) (j / s) (j mod s))
         /\ pm w !! j = Some (pm_at (sample_phase code s j) (Z.of_nat s)
                                    (j mod s))).
  destruct (foldM_invariant body (fun idx => P (idx * s)%nat)
              (enumerate code) w0) as (w & Ew & Pw).
  { unfold P, w0; simpl; rewrite !repeat_list_length, Nat2Z.id.
    repeat split; intros; lia. }
  { intros idx [i val] w Hlook Pidx.
    apply enumerate_lookup in Hlook as [-> Hval].
    assert (Hidx : (idx < n)%nat) by (eapply lookup_lt_Some; eassumption).
    pose proof Htab as Ktab.
    specialize (Ktab ltac:(lia)).
    pose proof (valid_bit_lookup code idx val Hcode Hval) as Hbit.
    pose proof (bit_value_lookup code idx val Hval) as Hv.
    unfold body; cbv beta iota.
    match goal with |- context [foldM ?b ?l w] =>
      set (inner := b); set (samples := l) end.
    destruct (foldM_invariant inner (fun k => P (idx * s + k)%nat) samples w)
      as (w' & Ew' & Pw').
    - now rewrite Nat.add_0_r.
    - intros k i w1 Hi ((Lam & Lfm & Lpm) & Hph & Hold).
      apply range_lookup in Hi as [Ei Hlt].
      assert (Hk : (k < s)%nat) by nia.
      assert (Hm : (idx * s + k < n * s)%nat) by nia.
      replace i with (Z.of_nat (idx * s + k)) by lia.
      destruct (sample_cycle s idx k Hk) as [Hdiv Hmod].
      destruct (Ktab k Hk) as [Kt K2t].
      unfold inner.
      rewrite (int_bit val Hbit), <- Hv, !bind_Ok.
      rewrite mod_nonzero by lia.
      rewrite <- Nat2Z.inj_mod, Hmod, !bind_Ok.
      rewrite (getitem_in_range sin_t k _ Kt), bind_Ok.
      rewrite setitem_in_range by lia; rewrite !bind_Ok.
      assert (Efm : (if truthy (bit_value code idx)
                     then getitem sin_2t (Z.of_nat k)
                     else getitem sin_t (Z.of_nat k))
                    = Ok (fm_at code (Z.of_nat s) idx k)).
      { unfold fm_at, truthy, zero_bit.
        destruct (bit_value code idx =? 0)%N; simpl;
          now apply getitem_in_range. }
      rewrite Efm, bind_Ok.
      rewrite setitem_in_range by lia; rewrite bind_Ok.
      assert (Ephase :
        (if (Z.of_nat idx >? 0)%Z
         then Ok (xorb (phase_shift w1) (negb (truthy (bit_value code idx))))
         else Ok (phase_shift w1))
        = Ok (sample_phase code s (idx * s + k))).
      { rewrite (sample_phase_step code s idx k Hk), <- Hph.
        unfold truthy; rewrite negb_involutive; fold (zero_bit code idx).
        rewrite Z.gtb_ltb.
        destruct (Z.ltb_spec 0 (Z.of_nat idx)) as [Hpos|Hzero].
        - now replace (0 <? idx)%nat with true
            by (symmetry; apply Nat.ltb_lt; lia).
        - replace (0 <? idx)%nat with false
            by (symmetry; apply Nat.ltb_ge; lia).
          now rewrite xorb_false_r. }
      rewrite Ephase, !bind_Ok.
      rewrite (getitem_in_range sin_t k _ Kt), bind_Ok.
      rewrite setitem_in_range by lia; rewrite bind_Ok.
      eexists; split; [reflexivity|]; unfold P; simpl; exact_arith.
      rewrite !length_insert.
      split; [now repeat split|]; split; [f_equal; lia|].
      intros j Hj.
      destruct (Nat.eq_dec j (idx * s + k)%nat) as [->|Hne].
      + rewrite !list_lookup_insert_eq by lia.
        now rewrite Hdiv, Hmod.
      + rewrite !list_lookup_insert_ne by lia. apply Hold; lia.
    - exists w'; split; [exact Ew'|].
      unfold samples in Pw'; rewrite range_length in Pw'.
      replace (Z.to_nat ((Z.of_nat idx + 1) * Z.of_nat s
                         - Z.of_nat idx * Z.of_nat s)) with s in Pw' by lia.
      now replace (S idx * s)%nat with (idx * s + s)%nat by lia. }
  rewrite Ew, bind_Ok; eexists; split; [reflexivity|].
  rewrite enumerate_length in Pw; fold n in Pw.
  destruct Pw as (Hlen & _ & Hall).
  split; [now split|]; split; [exact Ht|].
  intros i k Hi Hk.
  destruct (sample_cycle s i k Hk) as [Hdiv Hmod].
  specialize (Hall (i * s + k)%nat ltac:(fold n in Hi; nia)).
  now rewrite Hdiv, Hmod in Hall.
Qed.
End NativeFacts.

(** ** Arguments the engine is not meant for *)

Section EdgeFacts.
Import Py Spec Waveform.
Context `{Runtime}.






End EdgeFacts.

Section ExactEdgeFacts.
Import Py Spec Waveform.
Variable digits : pychar -> option N.
Variable garbage : nat -> nat -> R.
Let rt : Runtime := exact_runtime digits garbage.
Local Existing Instance rt.
Open Scope R_scope.



End ExactEdgeFacts.

(** ** Claims about the engine *)

Section EngineClaims.
Import Py Spec Waveform.
Variable digits : pychar -> option N.
Variable garbage : nat -> nat -> R.
Let rt : Runtime := exact_runtime digits garbage.
Local Existing Instance rt.
Open Scope R_scope.

(** Both backends in exact arithmetic, on a bit sequence and at least one
    sample per cycle. *)
Lemma waveforms_run (slow : bool) (code : list pychar) (steps : Z) :
  forallb is_bit code = true -> (1 <= steps)%Z ->
  exists r, waveforms slow code steps = Ok r
    /\ generated (backend_phase slow code (Z.to_nat steps)) code
                 (Z.to_nat steps) r
    /\ Z.of_nat (Z.to_nat steps) = steps.
Proof.
  intros Hcode Hsteps.
  remember (Z.to_nat steps) as s eqn:Es.
  assert (Hs : (0 < s)%nat) by lia.
  assert (steps = Z.of_nat s) as -> by lia; clear Es Hsteps.
  unfold waveforms, backend_phase.
  destruct slow.
  - destruct (native_run digits garbage code _ Hcode Hs) as (r & E & G);
      now exists r.
  - destruct (numpy_run digits garbage code _ Hcode Hs) as (r & E & G);
      now exists r.
Qed.

Lemma base_quarter : base 4 1 = 1.
Proof.
  unfold base; replace (2 * PI * INR 1 / IZR 4) with (PI / 2)
    by (simpl; field).
  apply sin_PI2.
Qed.

(** In exact arithmetic both backends return four arrays of [N * steps]
    values, and the time axis holds [j / steps] at index [j]. *)
Lemma exact_shape_and_time_axis (slow : bool) (code : list pychar)
    (steps : Z) :
  forallb is_bit code = true -> (1 <= steps)%Z ->
  exists t am fm pm : list R,
    waveforms slow code steps = Ok (t, am, fm, pm)
    /\ length t = (length code * Z.to_nat steps)%nat
    /\ length am = (length code * Z.to_nat steps)%nat
    /\ length fm = (length code * Z.to_nat steps)%nat
    /\ length pm = (length code * Z.to_nat steps)%nat
    /\ forall j, (j < length code * Z.to_nat steps)%nat ->
                 t !! j = Some (INR j / IZR steps).
Proof.
  intros Hcode Hsteps.
  destruct (waveforms_run slow code steps Hcode Hsteps)
    as ([[[t am] fm] pm] & E & ((Lt & La & Lf & Lp) & Ht & _) & Es).
  exists t, am, fm, pm; rewrite Es in Ht; tauto.
Qed.

(** Without rounding: on a bit sequence and with [steps >= 1], sample [j]
    of the AM wave, in cycle [i = j // steps] at position [k = j % steps],
    is [((int(bit_i) + 1) / 2) * sin(2 pi k / steps)]: half the base
    carrier for a 0 bit, the full base carrier for a 1 bit. *)
Lemma am_samples_exact (slow : bool) (code : list pychar) (steps : Z) :
  code <> [] -> forallb is_bit code = true -> (1 <= steps)%Z ->
  exists t am fm pm : list R,
    waveforms slow code steps = Ok (t, am, fm, pm)
    /\ forall j b v,
         (j < length code * Z.to_nat steps)%nat ->
         code !! (j / Z.to_nat steps)%nat = Some b -> int b = Ok v ->
         am !! j = Some (IZR (Z.of_N v + 1) / 2
                         * sin (2 * PI * INR (j mod Z.to_nat steps) / IZR steps))
         /\ (b = chr0 -> IZR (Z.of_N v + 1) / 2 = 1 / 2)
         /\ (b = chr1 -> IZR (Z.of_N v + 1) / 2 = 1).
Proof.
  intros _ Hcode Hsteps.
  destruct (waveforms_run slow code steps Hcode Hsteps)
    as ([[[t am] fm] pm] & E & (_ & _ & Hall) & Es).
  exists t, am, fm, pm; split; [exact E|].
  intros j b v Hj Hb Hv.
  set (s := Z.to_nat steps) in *.
  assert (Hs : (0 < s)%nat) by lia.
  destruct (sample_split s j Hs) as [Ej Hk].
  assert (Hi : (j / s < length code)%nat)
    by (eapply lookup_lt_Some; eassumption).
  destruct (Hall (j / s)%nat (j mod s)%nat Hi Hk) as (Ham & _ & _).
  rewrite <- Ej, Es in Ham.
  rewrite (int_bit b (valid_bit_lookup code _ b Hcode Hb)) in Hv.
  injection Hv as <-.
  split; [|split].
  - rewrite Ham; unfold am_at, base.
    now rewrite (bit_value_lookup code _ b Hb).
  - intros ->; reflexivity.
  - intros ->; change (Z.of_N (digit_value chr1) + 1)%Z with 2%Z; lra.
Qed.

(** Without rounding: on a bit sequence and with [steps >= 1], sample [j]
    of the FM wave, in cycle [i = j // steps] at position [k = j % steps],
    is the doubled-frequency sample [sin(2 pi 2 k / steps)] when bit [i]
    is 1 and the base-frequency sample [sin(2 pi k / steps)] when it is
    0. *)
Lemma fm_samples_exact (slow : bool) (code : list pychar) (steps : Z) :
  code <> [] -> forallb is_bit code = true -> (1 <= steps)%Z ->
  exists t am fm pm : list R,
    waveforms slow code steps = Ok (t, am, fm, pm)
    /\ forall j b,
         (j < length code * Z.to_nat steps)%nat ->
         code !! (j / Z.to_nat steps)%nat = Some b ->
         (b = chr1 ->
          fm !! j = Some (sin (2 * PI * 2 * INR (j mod Z.to_nat steps)
                               / IZR steps)))
         /\ (b = chr0 ->
             fm !! j = Some (sin (2 * PI * INR (j mod Z.to_nat steps)
                                  / IZR steps))).
Proof.
  intros _ Hcode Hsteps.
  destruct (waveforms_run slow code steps Hcode Hsteps)
    as ([[[t am] fm] pm] & E & (_ & _ & Hall) & Es).
  exists t, am, fm, pm; split; [exact E|].
  intros j b Hj Hb.
  set (s := Z.to_nat steps) in *.
  assert (Hs : (0 < s)%nat) by lia.
  destruct (sample_split s j Hs) as [Ej Hk].
  assert (Hi : (j / s < length code)%nat)
    by (eapply lookup_lt_Some; eassumption).
  destruct (Hall (j / s)%nat (j mod s)%nat Hi Hk) as (_ & Hfm & _).
  rewrite <- Ej, Es in Hfm.
  unfold fm_at, zero_bit in Hfm.
  rewrite (bit_value_lookup code _ b Hb) in Hfm.
  split; intros ->; exact Hfm.
Qed.



(** The two backends on the bits 1, 0 with four samples per cycle, in exact
    arithmetic. *)
Lemma run_10_4 (slow : bool) :
  exists t am fm pm : list R,
    waveforms slow (str "10") 4 = Ok (t, am, fm, pm)
    /\ pm !! 1%nat = Some 1
    /\ pm !! 5%nat = Some (if slow then 1 else -1).
Proof.
  destruct (waveforms_run slow (str "10") 4 eq_refl ltac:(lia))
    as ([[[t am] fm] pm] & E & (_ & _ & Hall) & _).
  exists t, am, fm, pm; split; [exact E|].
  change (Z.to_nat 4) with 4%nat in Hall.
  destruct (Hall 0%nat 1%nat) as (_ & _ & H1); [simpl; lia | lia |].
  destruct (Hall 1%nat 1%nat) as (_ & _ & H5); [simpl; lia | lia |].
  change (0 * 4 + 1)%nat with 1%nat in H1.
  change (1 * 4 + 1)%nat with 5%nat in H5.
  rewrite H1, H5; unfold pm_at; change (Z.of_nat 4) with 4%Z.
  rewrite base_quarter.
  split; f_equal.
  - replace (backend_phase slow (str "10") 4 0 1) with false
      by (now destruct slow).
    unfold factor; lra.
  - destruct slow.
    + replace (backend_phase true (str "10") 4 1 1) with false by reflexivity.
      unfold factor; lra.
    + replace (backend_phase false (str "10") 4 1 1) with true by reflexivity.
      unfold factor; lra.
Qed.

(** C1, at the bits 1, 0 with four samples per cycle, in exact arithmetic:
    sample 5 of the PM wave is 1 in the scalar backend and -1 in the
    vectorised one, two apart where the specification allows 1e-9. *)
Theorem backends_disagree_on_pm :
  exists tn an fn pn tv av fv pv : list R,
    _waveforms_native (str "10") 4 = Ok (tn, an, fn, pn)
    /\ _waveforms_numpy (str "10") 4 = Ok (tv, av, fv, pv)
    /\ pn !! 5%nat = Some 1
    /\ pv !! 5%nat = Some (-1)
    /\ 1 / 1000000000 < Rabs (1 - -1).
Proof.
  destruct (run_10_4 true) as (tn & an & fn & pn & En & _ & Hn).
  destruct (run_10_4 false) as (tv & av & fv & pv & Ev & _ & Hv).
  exists tn, an, fn, pn, tv, av, fv, pv.
  repeat split; try assumption.
  replace (1 - -1) with 2 by lra.
  rewrite Rabs_pos_eq; lra.
Qed.

(** C2, at the bits 1, 0 with four samples per cycle, in the scalar backend
    and in exact arithmetic: bit 1 is a zero, yet sample 1 of cycle 1 has
    the value, and so the sign, of sample 1 of cycle 0. The parity was
    toggled at sample 0 of cycle 1 and toggled back at sample 1. *)
Theorem native_phase_toggles_per_sample :
  exists t am fm pm : list R,
    _waveforms_native (str "10") 4 = Ok (t, am, fm, pm)
    /\ str "10" !! 1%nat = Some chr0
    /\ pm !! (0 * 4 + 1)%nat = Some 1
    /\ pm !! (1 * 4 + 1)%nat = Some 1
    /\ sample_phase (str "10") 4 (1 * 4 + 0) = true
    /\ sample_phase (str "10") 4 (1 * 4 + 1) = false.
Proof.
  destruct (run_10_4 true) as (t & am & fm & pm & E & H1 & H5).
  exists t, am, fm, pm; repeat split; assumption || reflexivity.
Qed.

End EngineClaims.

(** ** Runs on given inputs *)

Section Runs.
Import Py Spec Waveform.
Open Scope R_scope.


(** C5, at the single bit 1 with 49 samples per cycle, in double precision
    and with numpy: [1 / 49] rounds below a forty-ninth, one divided by it
    rounds above 49, and [numpy.arange] makes 50 points. The four arrays have
    50 values where the specification wants 49; the last value of each wave is what
    [numpy.empty_like] found in memory. The scalar backend returns 49. *)
Theorem numpy_axis_one_sample_too_long
    (digits : pychar -> option N)
    (libm_sin : PrimFloat.float -> PrimFloat.float)
    (garbage : nat -> nat -> PrimFloat.float) :
  let rt := binary64_runtime digits libm_sin garbage in
  (exists t am fm pm,
     @waveforms rt false (str "1") 49 = Ok (t, am, fm, pm)
     /\ length t = 50%nat /\ length am = 50%nat
     /\ length fm = 50%nat /\ length pm = 50%nat
     /\ am !! 49%nat = Some (garbage 0%nat 49%nat)
     /\ fm !! 49%nat = Some (garbage 1%nat 49%nat)
     /\ pm !! 49%nat = Some (garbage 2%nat 49%nat))
  /\ (exists t am fm pm,
        @waveforms rt true (str "1") 49 = Ok (t, am, fm, pm)
        /\ length t = 49%nat /\ length am = 49%nat
        /\ length fm = 49%nat /\ length pm = 49%nat).
Proof.
  intros rt; split.
  - remember (@waveforms rt false (str "1") 49) as r eqn:E.
    vm_compute in E; subst r.
    eexists _, _, _, _; split; [reflexivity|]; repeat split.
  - remember (@waveforms rt true (str "1") 49) as r eqn:E.
    vm_compute in E; subst r.
    eexists _, _, _, _; split; [reflexivity|]; repeat split.
Qed.

End Runs.

(** * Further properties *)

(** * Further properties *)

(** ** The parser, whatever the input *)

Section ParserFacts.
Import Py Re Gui Spec.
Context `{Runtime}.

Lemma pos_bits_are_bits p : forallb is_bit (pos_bits p) = true.
Proof.
  induction p as [p IH|p IH|]; simpl; [| |reflexivity];
    rewrite forallb_app, IH; reflexivity.
Qed.

Lemma replicate_zero_bits k : forallb is_bit (replicate k chr0) = true.
Proof. induction k as [|k IH]; [reflexivity | exact IH]. Qed.

(** A formatted number is made of binary digits, one at least. *)
Lemma format_b_bits w n :
  forallb is_bit (format_b w n) = true /\ format_b w n <> [].
Proof.
  unfold format_b; split.
  - rewrite forallb_app, replicate_zero_bits; simpl.
    destruct n as [|p]; [reflexivity | apply pos_bits_are_bits].
  - destruct n as [|p]; [now destruct (w - _)%nat|].
    intros E; apply app_eq_nil in E as [_ E].
    now destruct p; simpl in E; try apply app_eq_nil in E as [_ E].
Qed.

Lemma concat_format_bits w (S : pystr) :
  forallb is_bit (concat (map (format_b w) S)) = true.
Proof.
  induction S as [|c S IH]; [reflexivity|]; simpl.
  rewrite forallb_app, IH, (proj1 (format_b_bits w c)); reflexivity.
Qed.

(** The BCD loop on decimal digits of any script. *)
Lemma bcd_loop_decimal D acc :
  forallb is_decimal D = true ->
  foldM (fun bit_string i => d ← int i; Ok (bit_string ++ format_b 4 d)) D acc
  = Ok (acc ++ concat (map (fun c => format_b 4 (decimal_or_zero c)) D)).
Proof.
  revert acc; induction D as [|c D IH]; intros acc HD; simpl.
  - now rewrite app_nil_r.
  - simpl in HD; apply andb_true_iff in HD as [Hc HD].
    unfold is_decimal in Hc; unfold int, decimal_or_zero at 1.
    destruct (decimal_value c) as [d|]; [|discriminate Hc]; simpl.
    now rewrite (IH _ HD), <- app_assoc.
Qed.

Lemma concat_nonempty {A B} (f : A -> list B) (l : list A) :
  l <> [] -> (forall a, f a <> []) -> concat (map f l) <> [].
Proof.
  intros Hl Hf; destruct l as [|a l]; [easy|]; simpl.
  intros E; apply app_eq_nil in E as [E _]; now apply (Hf a).
Qed.

(** What [_evaluate_input] does, pattern by pattern. *)
Lemma evaluate_input_cases (inp : pystr) :
  _evaluate_input inp =
  if fullmatch _BINARY_PATTERN inp then Ok inp
  else if fullmatch _ASCII_PATTERN inp
       then Ok (concat (map (format_b 7) (drop 2 inp)))
  else if fullmatch _DECIMAL_PATTERN inp
       then Ok (concat (map (fun c => format_b 4 (decimal_or_zero c))
                            (drop 2 inp)))
  else Raise ValueError.
Proof.
  unfold _evaluate_input.
  destruct (fullmatch _BINARY_PATTERN inp); [reflexivity|].
  destruct (fullmatch _ASCII_PATTERN inp); [simpl; now rewrite ascii_loop|].
  destruct (fullmatch _DECIMAL_PATTERN inp) eqn:E; [|reflexivity].
  rewrite fullmatch_decimal in E.
  destruct inp as [|d [|u [|c D]]]; try discriminate E.
  apply andb_true_iff in E as [_ E]; apply andb_true_iff in E as [_ E].
  change (drop 2 (d :: u :: c :: D)) with (c :: D).
  rewrite (bcd_loop_decimal (c :: D) []); [reflexivity|exact E].
Qed.

(** The three branches of [_evaluate_input] return binary digits. *)
Lemma parsed_bits (inp : pystr) (bits : list pychar) :
  _evaluate_input inp = Ok bits -> forallb is_bit bits = true.
Proof.
  rewrite evaluate_input_cases.
  destruct (fullmatch _BINARY_PATTERN inp) eqn:EB.
  { intros [= <-]; rewrite fullmatch_binary in EB.
    now destruct inp as [|c s]. }
  destruct (fullmatch _ASCII_PATTERN inp); [intros [= <-]|].
  { apply concat_format_bits. }
  destruct (fullmatch _DECIMAL_PATTERN inp); [|discriminate].
  intros [= <-]; rewrite <- (map_map decimal_or_zero (format_b 4)).
  apply concat_format_bits.
Qed.

(** X1: whatever the input, a result of [_evaluate_input] is a bit sequence:
    it is not empty and holds only the characters 0 and 1. *)
Theorem evaluate_input_returns_bits (inp : pystr) (bits : list pychar) :
  _evaluate_input inp = Ok bits ->
  bits <> [] /\ forallb is_bit bits = true.
Proof.
  intros E; split; [|exact (parsed_bits inp bits E)].
  revert E; rewrite evaluate_input_cases.
  destruct (fullmatch _BINARY_PATTERN inp) eqn:EB.
  { intros [= <-]; rewrite fullmatch_binary in EB.
    now destruct inp as [|c s]. }
  destruct (fullmatch _ASCII_PATTERN inp) eqn:EA.
  { intros [= <-]; rewrite fullmatch_ascii in EA.
    destruct inp as [|a [|u [|c S]]]; try discriminate EA.
    apply concat_nonempty; [easy | intros x; apply (format_b_bits 7 x)]. }
  destruct (fullmatch _DECIMAL_PATTERN inp) eqn:ED; [|discriminate].
  intros [= <-]; rewrite fullmatch_decimal in ED.
  destruct inp as [|a [|u [|c S]]]; try discriminate ED.
  apply concat_nonempty; [easy | intros x; apply (format_b_bits 4)].
Qed.

Lemma fullmatch_binary_iff inp :
  fullmatch _BINARY_PATTERN inp = true <->
  inp <> [] /\ forallb is_bit inp = true.
Proof.
  rewrite fullmatch_binary; destruct inp as [|c s]; simpl; [|easy].
  split; [discriminate | now intros [? _]].
Qed.

Lemma fullmatch_ascii_iff inp :
  fullmatch _ASCII_PATTERN inp = true <->
  exists S, inp = str "a_" ++ S /\ S <> []
            /\ forallb (fun c => negb (c =? 10)%N) S = true.
Proof.
  rewrite fullmatch_ascii; split.
  - destruct inp as [|a [|u [|c S]]]; try discriminate.
    intros E; apply andb_true_iff in E as [Ea E].
    apply andb_true_iff in E as [Eu E].
    apply N.eqb_eq in Ea, Eu; subst a u.
    exists (c :: S); now repeat split.
  - intros (S & -> & HS & Hnl); destruct S as [|c S]; [easy|].
    exact Hnl.
Qed.

Lemma fullmatch_decimal_iff inp :
  fullmatch _DECIMAL_PATTERN inp = true <->
  exists D, inp = str "d_" ++ D /\ D <> []
            /\ forallb is_decimal D = true.
Proof.
  rewrite fullmatch_decimal; split.
  - destruct inp as [|a [|u [|c S]]]; try discriminate.
    intros E; apply andb_true_iff in E as [Ea E].
    apply andb_true_iff in E as [Eu E].
    apply N.eqb_eq in Ea, Eu; subst a u.
    exists (c :: S); now repeat split.
  - intros (S & -> & HS & Hd); destruct S as [|c S]; [easy|].
    exact Hd.
Qed.

Lemma evaluate_input_outcome (inp : pystr) :
  (recognised inp /\ exists bits, _evaluate_input inp = Ok bits)
  \/ (~ recognised inp /\ _evaluate_input inp = Raise ValueError).
Proof.
  rewrite evaluate_input_cases; unfold recognised.
  rewrite <- fullmatch_binary_iff, <- fullmatch_ascii_iff,
    <- fullmatch_decimal_iff.
  destruct (fullmatch _BINARY_PATTERN inp); [left; eauto|].
  destruct (fullmatch _ASCII_PATTERN inp); [left; eauto|].
  destruct (fullmatch _DECIMAL_PATTERN inp); [left; eauto|].
  right; split; [|reflexivity]. now intros [?|[?|?]].
Qed.

(** X2: [_evaluate_input] returns exactly on the inputs of one of the three
    forms (binary digits; [a_] and a payload free of newlines; [d_] and
    decimal digits; the payloads not empty), and on every other input it
    raises [ValueError], never anything else. *)
Theorem evaluate_input_succeeds_iff_recognised (inp : pystr) :
  ((exists bits, _evaluate_input inp = Ok bits) <-> recognised inp)
  /\ (~ recognised inp -> _evaluate_input inp = Raise ValueError).
Proof.
  destruct (evaluate_input_outcome inp) as [[Hr Hex]|[Hn E]].
  - split; [now split|]. now intros Hn.
  - split; [|now intros _].
    split; [|now intros Hr].
    intros [bits Eb]; rewrite E in Eb; discriminate Eb.
Qed.

(** X4: a newline in the payload of [a_] makes the input invalid, although
    a newline is an ASCII character. *)
Theorem ascii_payload_with_newline_is_rejected (S : pystr) :
  In 10%N S -> _evaluate_input (str "a_" ++ S) = Raise ValueError.
Proof.
  intros Hin.
  destruct (evaluate_input_outcome (str "a_" ++ S)) as [[Hr _]|[_ E]];
    [exfalso|exact E].
  destruct Hr as [[_ Hb]|[(S' & E & _ & Hnl)|(D & E & _)]].
  - discriminate Hb.
  - injection E as <-.
    apply (proj1 (forallb_forall _ _) Hnl) in Hin; discriminate Hin.
  - discriminate E.
Qed.

(** Pieces of equal width are read back from their concatenation. *)
Lemma pieces_concat {A B} (f : A -> list B) (w : nat) (l : list A) :
  (0 < w)%nat -> (forall a, In a l -> length (f a) = w) ->
  pieces w (length l) (concat (map f l)) = map f l.
Proof.
  intros Hw; induction l as [|a l IH]; intros Hl; [reflexivity|].
  assert (La : length (f a) = w) by (apply Hl; now left).
  simpl. destruct (f a ++ concat (map f l)) as [|b r] eqn:E.
  { apply (f_equal length) in E; rewrite length_app, La in E.
    simpl in E; lia. }
  rewrite <- E, take_app_length', drop_app_length' by lia.
  f_equal; apply IH; intros x Hx; apply Hl; now right.
Qed.

Lemma below_cases (k : nat) (c : N) :
  (c < N.of_nat k)%N -> In c (map N.of_nat (seq 0 k)).
Proof.
  intros Hc; apply in_map_iff; exists (N.to_nat c); split; [lia|].
  apply in_seq; lia.
Qed.

(** The seven-bit table: the format writes the seven low bits, and they
    read back as the code point. *)
Lemma seven_bit_table :
  forallb (fun c => bool_decide ((format_b 7 c : list N) = bits_msb_first 7 c)
                    && (binary_number (bits_msb_first 7 c) =? c)%N)
          (map N.of_nat (seq 0 128)) = true.
Proof. vm_compute; reflexivity. Qed.

Lemma seven_bits c :
  (c < 128)%N ->
  format_b 7 c = bits_msb_first 7 c
  /\ binary_number (bits_msb_first 7 c) = c.
Proof.
  intros Hc; apply (below_cases 128) in Hc.
  apply (proj1 (forallb_forall _ _) seven_bit_table) in Hc.
  apply andb_true_iff in Hc as [E1 E2].
  apply bool_decide_eq_true in E1; apply N.eqb_eq in E2; now split.
Qed.

Lemma bits_msb_first_length w n : length (bits_msb_first w n) = w.
Proof. unfold bits_msb_first; now rewrite length_map, length_rev, length_seq. Qed.

(** X3: on [a_] and a payload of ASCII characters other than a newline,
    [_evaluate_input] returns seven bits per character, the code point most
    significant bit first, in input order; cut into pieces of seven and read
    as binary numbers, the result gives the payload back. *)
Theorem ascii_payload_is_seven_bits_per_character (S : pystr) :
  S <> [] ->
  forallb (fun c => (c <? 128)%N && negb (c =? 10)%N) S = true ->
  exists bits,
    _evaluate_input (str "a_" ++ S) = Ok bits
    /\ bits = concat (map (bits_msb_first 7) S)
    /\ length bits = (7 * length S)%nat
    /\ map binary_number (pieces 7 (length S) bits) = S.
Proof.
  intros HS Hall.
  assert (Hlt : forall c, In c S -> (c < 128)%N).
  { intros c Hc; apply (proj1 (forallb_forall _ _) Hall) in Hc.
    apply andb_true_iff in Hc as [Hc _]; now apply N.ltb_lt. }
  assert (Hnl : forallb (fun c => negb (c =? 10)%N) S = true).
  { apply forallb_forall; intros c Hc.
    apply (proj1 (forallb_forall _ _) Hall) in Hc.
    now apply andb_true_iff in Hc as [_ Hc]. }
  assert (E : map (format_b 7) S = map (bits_msb_first 7) S).
  { apply map_ext_in; intros c Hc; now apply seven_bits, Hlt. }
  eexists; split; [now apply evaluate_input_ascii|]; rewrite E.
  split; [reflexivity|]; split.
  - clear; induction S as [|c S IH]; [reflexivity|]; cbn [concat map].
    rewrite length_app, IH, bits_msb_first_length; simpl; lia.
  - transitivity (map binary_number (map (bits_msb_first 7) S)).
    { f_equal; apply pieces_concat;
        [lia | intros; apply bits_msb_first_length]. }
    rewrite map_map; clear -Hlt.
    induction S as [|c S IH]; [reflexivity|]; simpl; f_equal.
    + apply seven_bits, Hlt; now left.
    + apply IH; intros x Hx; apply Hlt; now right.
Qed.

(** The BCD branch on the digits 0 to 9. *)
Lemma evaluate_input_bcd (D : pystr) :
  D <> [] -> forallb is_ascii_digit D = true ->
  _evaluate_input (str "d_" ++ D)
  = Ok (concat (map (fun c => bits_msb_first 4 (digit_value c)) D)).
Proof.
  intros HD Hdig; destruct D as [|c D]; [easy|].
  unfold _evaluate_input.
  rewrite fullmatch_binary, fullmatch_ascii, fullmatch_decimal; simpl app.
  cbn [is_bit N.eqb chr0 chr1 orb andb Pos.eqb].
  pose proof Hdig as Hdig'; simpl in Hdig'.
  apply andb_true_iff in Hdig' as [Hc HD'].
  rewrite (digit_matches_ascii_digit c Hc).
  assert (Hall : forallb (atom_matches no_flags Digit) D = true).
  { apply forallb_forall; intros x Hx.
    apply digit_matches_ascii_digit.
    now apply (proj1 (forallb_forall _ _) HD'). }
  rewrite Hall; cbn [andb drop].
  now rewrite (bcd_loop (c :: D) [] Hdig).
Qed.

Lemma nibble_table :
  forallb (fun d => (binary_number (bits_msb_first 4 d) =? d)%N)
          (map N.of_nat (seq 0 10)) = true.
Proof. vm_compute; reflexivity. Qed.

(** X5: the bits of [d_] and a payload of the digits 0 to 9 give the payload
    back: four bits per digit, and each piece of four reads as the value of
    its digit. *)
Theorem bcd_payload_reads_back (D : pystr) :
  D <> [] -> forallb is_ascii_digit D = true ->
  exists bits,
    _evaluate_input (str "d_" ++ D) = Ok bits
    /\ length bits = (4 * length D)%nat
    /\ map binary_number (pieces 4 (length D) bits) = map digit_value D.
Proof.
  intros HD Hdig.
  assert (Hlt : forall c, In c D -> (digit_value c < 10)%N).
  { intros c Hc; apply ascii_digit_value.
    now apply (proj1 (forallb_forall _ _) Hdig). }
  eexists; split; [now apply evaluate_input_bcd|].
  split.
  - clear; induction D as [|x S IH]; [reflexivity|]; cbn [concat map].
    rewrite length_app, IH, bits_msb_first_length; simpl; lia.
  - transitivity (map binary_number
                    (map (fun c => bits_msb_first 4 (digit_value c)) D)).
    { f_equal; apply pieces_concat;
        [lia | intros; apply bits_msb_first_length]. }
    rewrite map_map; apply map_ext_in; intros x Hx.
    apply Hlt, (below_cases 10) in Hx.
    apply (proj1 (forallb_forall _ _) nibble_table) in Hx.
    now apply N.eqb_eq.
Qed.

(** X6: whichever encoding of the menu is selected, [_evaluate_btn] evaluates
    the text of the entry behind the prefix [_PRE_MAP] gives that encoding:
    no key of the dictionary is touched by the replacement of another. *)
Theorem evaluate_btn_puts_the_prefix (label prefix text : pystr) :
  In (label, prefix) _PRE_MAP ->
  _evaluate_btn label text = _evaluate_input (prefix ++ text).
Proof.
  intros [E|[E|[E|[]]]]; injection E as <- <-; reflexivity.
Qed.

End ParserFacts.

(** ** The engine in any arithmetic *)

Section AnyArithmetic.
Import Py Spec Waveform.
Context `{Runtime}.

Lemma bind_inv {A B} (m : result A) (k : A -> result B) (b : B) :
  (m ≫= k) = Ok b -> exists a, m = Ok a /\ k a = Ok b.
Proof. destruct m as [a|e]; [now exists a | discriminate]. Qed.

(** What every turn of a loop keeps, the loop keeps. *)
Lemma foldM_preserves {S A} (body : S -> A -> result S) (P : S -> Prop)
    (l : list A) (s0 s' : S) :
  (forall s a s1, P s -> body s a = Ok s1 -> P s1) ->
  P s0 -> foldM body l s0 = Ok s' -> P s'.
Proof.
  intros Hstep; revert s0; induction l as [|a l IH]; intros s0 H0 E.
  - now injection E as <-.
  - simpl in E; apply bind_inv in E as (s1 & E1 & E).
    exact (IH s1 (Hstep _ _ _ H0 E1) E).
Qed.

(** A loop that keeps an invariant up to a turn that raises, raises. *)
Lemma foldM_raises {S A} (body : S -> A -> result S) (P : S -> Prop)
    (l : list A) (s0 : S) (k : nat) (a : A) (e : exn) :
  P s0 -> l !! k = Some a ->
  (forall j b s, (j < k)%nat -> l !! j = Some b -> P s ->
                 exists s1, body s b = Ok s1 /\ P s1) ->
  (forall s, P s -> body s a = Raise e) ->
  foldM body l s0 = Raise e.
Proof.
  intros H0 Hk Hbefore Hat; revert s0 k H0 Hk Hbefore.
  induction l as [|b l IH]; intros s0 k H0 Hk Hbefore; [discriminate Hk|].
  destruct k as [|k]; simpl.
  - injection Hk as ->. now rewrite (Hat s0 H0).
  - destruct (Hbefore 0%nat b s0 ltac:(lia) eq_refl H0) as (s1 & -> & H1).
    simpl. apply (IH s1 k H1 Hk).
    intros j c s Hj Hc; apply (Hbefore (Datatypes.S j) c s); [lia | exact Hc].
Qed.


Lemma bound_le (len : nat) (b : Z) : (bound len b <= len)%nat.
Proof. unfold bound; destruct (Z.ltb_spec b 0); lia. Qed.

(** A slice assignment that succeeds keeps the length of the array. *)
Lemma set_slice_length {A} (a src a' : list A) (lo hi : Z) :
  Np.set_slice a lo hi src = Ok a' -> length a' = length a.
Proof.
  unfold Np.set_slice; cbv zeta.
  pose proof (bound_le (length a) lo); pose proof (bound_le (length a) hi).
  destruct (length src =? _)%nat eqn:E.
  - apply Nat.eqb_eq in E; intros [= <-].
    rewrite !length_app, length_take, length_drop; lia.
  - destruct src as [|x [|? ?]]; try discriminate; intros [= <-].
    rewrite !length_app, length_take, length_drop, length_replicate; lia.
Qed.


Lemma setitem_length {A} (l l' : list A) (i : Z) (x : A) :
  setitem l i x = Ok l' -> length l' = length l.
Proof.
  unfold setitem; destruct (index _ _); [|discriminate].
  intros [= <-]; apply length_insert.
Qed.

Lemma index_ok (len : nat) (i : Z) :
  (0 <= i < Z.of_nat len)%Z -> index len i = Some (Z.to_nat i).
Proof.
  intros Hi; replace i with (Z.of_nat (Z.to_nat i)) at 1 by lia.
  apply index_in_range; lia.
Qed.

Lemma getitem_ok {A} (l : list A) (i : Z) :
  (0 <= i < Z.of_nat (length l))%Z -> exists a, getitem l i = Ok a.
Proof.
  intros Hi; unfold getitem; rewrite index_ok by assumption.
  destruct (lookup_lt_is_Some_2 l (Z.to_nat i) ltac:(lia)) as [a ->].
  now exists a.
Qed.

Lemma setitem_ok {A} (l : list A) (i : Z) (x : A) :
  (0 <= i < Z.of_nat (length l))%Z ->
  exists l', setitem l i x = Ok l' /\ length l' = length l.
Proof.
  intros Hi; unfold setitem; rewrite index_ok by assumption.
  eexists; split; [reflexivity | apply length_insert].
Qed.

Lemma int_decimal c :
  is_decimal c = true -> int c = Ok (decimal_or_zero c).
Proof.
  unfold is_decimal, int, decimal_or_zero.
  now destruct (decimal_value c).
Qed.

Lemma int_not_decimal c : is_decimal c = false -> int c = Raise ValueError.
Proof.
  unfold is_decimal, int.
  now destruct (decimal_value c).
Qed.


(** The first character of a sequence that is not a digit. *)
Lemma first_not_decimal (code : list pychar) :
  forallb is_decimal code = false ->
  exists k c, code !! k = Some c /\ is_decimal c = false
    /\ forall j b, (j < k)%nat -> code !! j = Some b -> is_decimal b = true.
Proof.
  induction code as [|c code IH]; [discriminate|]; simpl.
  destruct (is_decimal c) eqn:Ec; simpl.
  - intros Hrest; destruct (IH Hrest) as (k & d & Hk & Hd & Hbefore).
    exists (S k), d; split; [exact Hk|]; split; [exact Hd|].
    intros [|j] b Hj Hb; [now injection Hb as <- |].
    apply (Hbefore j b); [lia | exact Hb].
  - intros _; exists 0%nat, c; split; [reflexivity|]; split; [exact Ec|].
    intros j b Hj; lia.
Qed.

Lemma range_cons lo hi : (lo < hi)%Z -> range lo hi = lo :: range (lo + 1) hi.
Proof.
  intros Hlt; unfold range; rewrite seqZ_cons by lia.
  f_equal; f_equal; lia.
Qed.

(** *** The scalar backend *)

(** With [steps >= 1] the scalar backend has one outcome on digits and one
    on anything else, in any arithmetic. *)
Lemma native_outcome (code : list pychar) (s : nat) :
  (0 < s)%nat ->
  (forallb is_decimal code = true ->
   exists t am fm pm,
     _waveforms_native code (Z.of_nat s) = Ok (t, am, fm, pm)
     /\ length t = (length code * s)%nat
     /\ length am = (length code * s)%nat
     /\ length fm = (length code * s)%nat
     /\ length pm = (length code * s)%nat)
  /\ (forallb is_decimal code = false ->
      _waveforms_native code (Z.of_nat s) = Raise ValueError).
Proof.
  intros Hs; unfold _waveforms_native.
  set (n := length code).
  rewrite truediv_nonzero by lia; rewrite bind_Ok.
  assert (E0 : repeat_list (float_of_int 0) (Z.of_nat s * Z.of_nat n)
               = replicate (n * s) (float_of_int 0))
    by (unfold repeat_list; f_equal; lia).
  rewrite !E0, length_replicate.
  (* the time axis *)
  match goal with |- context [foldM ?b (range 1 _) ?t0] =>
    destruct (foldM_invariant b (fun _ t => length t = (n * s)%nat)
                (range 1 (Z.of_nat (n * s))) t0) as (t & Et & Lt)
  end.
  { apply length_replicate. }
  { intros k idx t Hidx Lt.
    apply range_lookup in Hidx as [-> Hlt].
    destruct (getitem_ok t (1 + Z.of_nat k - 1) ltac:(lia)) as [prev ->].
    rewrite bind_Ok, <- Lt. apply setitem_ok; lia. }
  rewrite Et, bind_Ok.
  (* the base curves *)
  match goal with |- context [foldM ?b (enumerate (slice_to t _)) ?st0] =>
    destruct (foldM_invariant b
                (fun _ st => length st.1 = s /\ length st.2 = s)
                (enumerate (slice_to t (Z.of_nat s))) st0)
      as ([sin_t sin_2t] & Etab & Lsin & Lsin2)
  end.
  { simpl; rewrite repeat_list_length; lia. }
  { intros k [idx t_k] [a b] Hk [La Lb]; simpl in La, Lb.
    apply enumerate_lookup in Hk as [-> Hk].
    rewrite slice_to_nonneg in Hk.
    apply lookup_take_Some in Hk as [_ Hks].
    destruct (setitem_ok a (Z.of_nat k)
                (fsin (t_k * float_of_int 2 * fpi)%py) ltac:(lia))
      as (a' & -> & La').
    destruct (setitem_ok b (Z.of_nat k)
                (fsin (float_of_int 2 * t_k * float_of_int 2 * fpi)%py)
                ltac:(lia))
      as (b' & -> & Lb').
    rewrite !bind_Ok; eexists; split; [reflexivity|]; simpl; lia. }
  simpl in Lsin, Lsin2.
  rewrite Etab, bind_Ok, Lt.
  match goal with |- context [foldM ?b (enumerate code) ?init] =>
    set (body := b); set (w0 := init) end.
  pose (P := fun w : waves =>
    length (am w) = (n * s)%nat /\ length (fm w) = (n * s)%nat
    /\ length (pm w) = (n * s)%nat).
  assert (P0 : P w0)
    by (unfold P, w0; simpl; rewrite !repeat_list_length; lia).
  (* a cycle on a digit *)
  assert (Hcycle : forall idx val w,
            (idx < n)%nat -> is_decimal val = true -> P w ->
            exists w', body w (Z.of_nat idx, val) = Ok w' /\ P w').
  { intros idx val w Hidx Hval Pw; unfold body; cbv beta iota.
    match goal with |- context [foldM ?b ?l w] =>
      destruct (foldM_invariant b (fun _ => P) l w) as (w' & Ew' & Pw')
    end; [exact Pw | | now exists w'].
    intros k i w1 Hi (Lam & Lfm & Lpm).
    apply range_lookup in Hi as [Ei Hlt].
    assert (Hi : (0 <= i < Z.of_nat (n * s))%Z) by nia.
    assert (Hk : (0 <= i mod Z.of_nat s < Z.of_nat s)%Z)
      by (apply Z.mod_pos_bound; lia).
    rewrite (int_decimal val Hval), !bind_Ok.
    rewrite mod_nonzero by lia; rewrite !bind_Ok.
    destruct (getitem_ok sin_t (i mod Z.of_nat s) ltac:(lia)) as [x Ex].
    destruct (getitem_ok sin_2t (i mod Z.of_nat s) ltac:(lia)) as [y Ey].
    rewrite Ex, bind_Ok.
    match goal with |- context [setitem (am w1) i ?v] =>
      destruct (setitem_ok (am w1) i v ltac:(lia)) as (am' & -> & Lam')
    end.
    rewrite !bind_Ok.
    assert (Efm : exists z,
              (if truthy (decimal_or_zero val)
               then getitem sin_2t (i mod Z.of_nat s)
               else getitem sin_t (i mod Z.of_nat s)) = Ok z)
      by (destruct (truthy _); eauto).
    destruct Efm as [z ->]; rewrite bind_Ok.
    destruct (setitem_ok (fm w1) i z ltac:(lia)) as (fm' & -> & Lfm').
    rewrite bind_Ok.
    assert (Eph : exists p : bool,
              (if (Z.of_nat idx >? 0)%Z
               then Ok (xorb (phase_shift w1)
                             (negb (truthy (decimal_or_zero val))))
               else Ok (phase_shift w1)) = Ok p)
      by (destruct (_ >? _)%Z; eauto).
    destruct Eph as [p ->]; rewrite !bind_Ok, Ex, bind_Ok.
    match goal with |- context [setitem (pm w1) i ?v] =>
      destruct (setitem_ok (pm w1) i v ltac:(lia)) as (pm' & -> & Lpm')
    end.
    rewrite bind_Ok; eexists; split; [reflexivity|].
    unfold P; simpl; lia. }
  (* a cycle on anything else *)
  assert (Hbad : forall idx val w,
            is_decimal val = false ->
            body w (Z.of_nat idx, val) = Raise ValueError).
  { intros idx val w Hval; unfold body; cbv beta iota.
    rewrite (range_cons (Z.of_nat idx * Z.of_nat s)) by lia.
    cbn [foldM]. now rewrite (int_not_decimal val Hval). }
  split.
  - intros Hcode.
    destruct (foldM_invariant body (fun _ => P) (enumerate code) w0)
      as (w & Ew & La & Lf & Lp); [exact P0| |].
    + intros idx [i val] w Hlook Pw.
      apply enumerate_lookup in Hlook as [-> Hval].
      apply Hcycle; [eapply lookup_lt_Some; eassumption | | exact Pw].
      apply (proj1 (forallb_forall _ _) Hcode).
      eapply list_elem_of_In, list_elem_of_lookup_2; eassumption.
    + rewrite Ew, bind_Ok. now exists t, (am w), (fm w), (pm w).
  - intros Hcode.
    destruct (first_not_decimal code Hcode) as (k & c & Hk & Hc & Hbefore).
    rewrite (foldM_raises body P (enumerate code) w0 k (Z.of_nat k, c)
               ValueError); [reflexivity | exact P0 | | |].
    + unfold enumerate; now rewrite list_lookup_imap, Hk.
    + intros j [i val] w Hj Hlook Pw.
      apply enumerate_lookup in Hlook as [-> Hval].
      apply Hcycle; [eapply lookup_lt_Some; eassumption | | exact Pw].
      now apply (Hbefore j).
    + intros w _; now apply Hbad.
Qed.

(** *** The vectorised backend *)




(** *** Both backends *)

(** X7: in any arithmetic, whenever [waveforms] returns, by either backend
    and for any characters and any number of steps, its three waves are
    as long as its time axis. *)
Theorem waves_are_as_long_as_the_time_axis (slow : bool) (code : list pychar) (steps : Z)
    (t a f p : list float) :
  waveforms slow code steps = Ok (t, a, f, p) ->
  length a = length t /\ length f = length t /\ length p = length t.
Proof.
  unfold waveforms; destruct slow.
  - unfold _waveforms_native; intros E.
    apply bind_inv in E as (step & _ & E).
    apply bind_inv in E as (t0 & _ & E).
    apply bind_inv in E as ([sin_t sin_2t] & _ & E).
    apply bind_inv in E as (w & Ew & E).
    injection E as <- <- <- <-.
    pose (P := fun w : waves =>
      length (am w) = length t0 /\ length (fm w) = length t0
      /\ length (pm w) = length t0).
    apply (foldM_preserves _ P _ _ _) with (3 := Ew).
    + intros w0 [idx val] w1 Pw0; cbv beta iota.
      apply (foldM_preserves _ P); [|exact Pw0].
      intros w2 i w3 (La & Lf & Lp) E.
      repeat (apply bind_inv in E as (? & ? & E));
        repeat match goal with
               | Hset : setitem _ _ _ = Ok _ |- _ =>
                   apply setitem_length in Hset
               end.
      injection E as <-; unfold P; simpl; repeat split; congruence.
    + unfold P; simpl; now rewrite !repeat_list_length, Nat2Z.id.
  - unfold _waveforms_numpy; intros E.
    apply bind_inv in E as (step & _ & E).
    apply bind_inv in E as (t0 & _ & E).
    apply bind_inv in E as (w & Ew & E).
    injection E as <- <- <- <-.
    pose (P := fun w : waves =>
      length (am w) = length t0 /\ length (fm w) = length t0
      /\ length (pm w) = length t0).
    apply (foldM_preserves _ P _ _ _) with (3 := Ew).
    + intros w0 [idx val] w1 (La & Lf & Lp) E.
      repeat (apply bind_inv in E as (? & ? & E));
        repeat match goal with
               | Hset : Np.set_slice _ _ _ _ = Ok _ |- _ =>
                   apply set_slice_length in Hset
               end.
      injection E as <-; unfold P; simpl; repeat split; congruence.
    + unfold P; simpl; unfold Np.empty_like; now rewrite !length_imap.
Qed.



End AnyArithmetic.

(** ** The engine in exact arithmetic, wave by wave *)

Section EngineFacts.
Import Py Spec Waveform.
Variable digits : pychar -> option N.
Variable garbage : nat -> nat -> R.
Let rt : Runtime := exact_runtime digits garbage.
Local Existing Instance rt.
Open Scope R_scope.


Lemma factor_flip p : factor (xorb p true) = - factor p.
Proof. destruct p; unfold factor; simpl; lra. Qed.


Lemma bit_cases b : is_bit b = true -> b = chr0 \/ b = chr1.
Proof.
  unfold is_bit; intros Hb; apply orb_true_iff in Hb as [Hb|Hb];
    apply N.eqb_eq in Hb; auto.
Qed.

Lemma base_start steps : base steps 0 = 0.
Proof.
  unfold base; replace (2 * PI * INR 0 / IZR steps) with 0
    by (simpl; unfold Rdiv; ring).
  apply sin_0.
Qed.

Lemma doubled_start steps : doubled steps 0 = 0.
Proof.
  unfold doubled; replace (2 * PI * 2 * INR 0 / IZR steps) with 0
    by (simpl; unfold Rdiv; ring).
  apply sin_0.
Qed.

(** X10: in the vectorised backend the sign of the PM wave is one per cycle:
    plus in cycle 0, and in cycle [i >= 1] the opposite of the sign of cycle
    [i - 1] when bit [i] is 0, the same sign when it is 1. *)
Theorem vectorised_pm_sign_per_cycle (code : list pychar) (steps : Z) :
  forallb is_bit code = true -> (1 <= steps)%Z ->
  exists (t am fm pm : list R) (sign : nat -> R),
    _waveforms_numpy code steps = Ok (t, am, fm, pm)
    /\ sign 0%nat = 1
    /\ (forall i b, code !! (S i) = Some b ->
          sign (S i) = if (b =? chr0)%N then - sign i else sign i)
    /\ (forall i k, (i < length code)%nat -> (k < Z.to_nat steps)%nat ->
          pm !! (i * Z.to_nat steps + k)%nat
          = Some (sign i * sin (2 * PI * INR k / IZR steps))).
Proof.
  intros Hcode Hsteps.
  destruct (waveforms_run digits garbage false code steps Hcode Hsteps)
    as ([[[t am] fm] pm] & E & (_ & _ & Hall) & Es).
  exists t, am, fm, pm, (fun i => factor (cycle_phase code i)).
  split; [exact E|]; split; [reflexivity|]; split.
  - intros i b Hb; simpl cycle_phase; unfold zero_bit.
    rewrite (bit_value_lookup code _ b Hb).
    destruct (bit_cases b (valid_bit_lookup code _ b Hcode Hb)) as [->| ->].
    + apply factor_flip.
    + simpl; now rewrite xorb_false_r.
  - intros i k Hi Hk; destruct (Hall i k Hi Hk) as (_ & _ & Hpm).
    rewrite Hpm, Es; reflexivity.
Qed.







(** X15: every cycle of the three waves starts at zero. *)
Theorem cycles_start_at_zero (slow : bool) (code : list pychar)
    (steps : Z) :
  forallb is_bit code = true -> (1 <= steps)%Z ->
  exists t am fm pm : list R,
    waveforms slow code steps = Ok (t, am, fm, pm)
    /\ forall i, (i < length code)%nat ->
         am !! (i * Z.to_nat steps)%nat = Some 0
         /\ fm !! (i * Z.to_nat steps)%nat = Some 0
         /\ pm !! (i * Z.to_nat steps)%nat = Some 0.
Proof.
  intros Hcode Hsteps.
  destruct (waveforms_run digits garbage slow code steps Hcode Hsteps)
    as ([[[t am] fm] pm] & E & (_ & _ & Hall) & Es).
  exists t, am, fm, pm; split; [exact E|].
  intros i Hi; destruct (Hall i 0%nat Hi ltac:(lia)) as (Ha & Hf & Hp).
  rewrite Nat.add_0_r in Ha, Hf, Hp; rewrite Ha, Hf, Hp.
  unfold am_at, fm_at, pm_at; rewrite base_start, doubled_start.
  repeat split; f_equal; try ring.
  now destruct (zero_bit code i).
Qed.



End EngineFacts.

(** ** Further runs on given inputs *)

Section FurtherRuns.
Import Py Re Gui Spec Waveform.
Open Scope R_scope.

Lemma evaluate_input_returns_bits_witness :
  @_evaluate_input plain_runtime (str "a_Hi") = Ok (str "10010001101001")
  /\ str "10010001101001" <> []
  /\ forallb is_bit (str "10010001101001") = true.
Proof.
  split; [reflexivity|].
  apply (@evaluate_input_returns_bits plain_runtime (str "a_Hi")).
  reflexivity.
Defined.

Lemma evaluate_input_succeeds_iff_recognised_witness :
  (@recognised plain_runtime (str "d_7")
   /\ exists bits, @_evaluate_input plain_runtime (str "d_7") = Ok bits)
  /\ (~ @recognised plain_runtime (str "2")
      /\ @_evaluate_input plain_runtime (str "2") = Raise ValueError).
Proof.
  assert (Hyes : @recognised plain_runtime (str "d_7")).
  { right; right; exists (str "7"); repeat split; discriminate. }
  assert (Hno : ~ @recognised plain_runtime (str "2")).
  { intros [[_ Hb]|[(S & E & _)|(D & E & _)]]; discriminate. }
  split; split; [exact Hyes | | exact Hno |].
  - apply (proj2 (proj1 (@evaluate_input_succeeds_iff_recognised
                           plain_runtime (str "d_7"))) Hyes).
  - apply (proj2 (@evaluate_input_succeeds_iff_recognised
                    plain_runtime (str "2")) Hno).
Defined.

Lemma ascii_payload_is_seven_bits_per_character_witness :
  str "Hi" <> []
  /\ forallb (fun c => (c <? 128)%N && negb (c =? 10)%N) (str "Hi") = true
  /\ exists bits,
       @_evaluate_input plain_runtime (str "a_" ++ str "Hi") = Ok bits
       /\ bits = concat (map (bits_msb_first 7) (str "Hi"))
       /\ length bits = (7 * length (str "Hi"))%nat
       /\ map binary_number (pieces 7 (length (str "Hi")) bits) = str "Hi".
Proof.
  split; [discriminate|]; split; [reflexivity|].
  apply (@ascii_payload_is_seven_bits_per_character plain_runtime (str "Hi"));
    [discriminate | reflexivity].
Defined.

Lemma ascii_payload_with_newline_is_rejected_witness :
  In 10%N [97%N; 10%N]
  /\ @_evaluate_input plain_runtime (str "a_" ++ [97%N; 10%N])
     = Raise ValueError.
Proof.
  split; [right; left; reflexivity|].
  apply (@ascii_payload_with_newline_is_rejected plain_runtime [97%N; 10%N]).
  right; left; reflexivity.
Defined.

Lemma bcd_payload_reads_back_witness :
  str "2020" <> [] /\ forallb is_ascii_digit (str "2020") = true
  /\ exists bits,
       @_evaluate_input plain_runtime (str "d_" ++ str "2020") = Ok bits
       /\ length bits = (4 * length (str "2020"))%nat
       /\ map binary_number (pieces 4 (length (str "2020")) bits)
          = map digit_value (str "2020").
Proof.
  split; [discriminate|]; split; [reflexivity|].
  apply (@bcd_payload_reads_back plain_runtime (str "2020"));
    [discriminate | reflexivity].
Defined.

Lemma evaluate_btn_puts_the_prefix_witness :
  In (str "7-bit ASCII", str "a_") _PRE_MAP
  /\ @_evaluate_btn plain_runtime (str "7-bit ASCII") (str "Hi")
     = @_evaluate_input plain_runtime (str "a_" ++ str "Hi").
Proof.
  split; [right; right; left; reflexivity|].
  apply (@evaluate_btn_puts_the_prefix plain_runtime
           (str "7-bit ASCII") (str "a_") (str "Hi")).
  right; right; left; reflexivity.
Defined.

Lemma waves_are_as_long_as_the_time_axis_witness :
  exists t am fm pm : list R,
    @waveforms plain_runtime true (str "10") 4 = Ok (t, am, fm, pm)
    /\ length am = length t /\ length fm = length t
    /\ length pm = length t.
Proof.
  destruct (exact_shape_and_time_axis (fun _ => None) (fun _ _ => 0)
              true (str "10") 4 eq_refl ltac:(lia))
    as (t & a & f & p & E & _).
  exists t, a, f, p; split; [exact E|].
  apply (@waves_are_as_long_as_the_time_axis plain_runtime
           true (str "10") 4 t a f p E).
Defined.



Lemma vectorised_pm_sign_per_cycle_witness :
  forallb is_bit (str "10") = true /\ (1 <= 4)%Z
  /\ exists (t am fm pm : list R) (sign : nat -> R),
       @_waveforms_numpy plain_runtime (str "10") 4 = Ok (t, am, fm, pm)
       /\ sign 0%nat = 1
       /\ (forall i b, str "10" !! (S i) = Some b ->
             sign (S i) = if (b =? chr0)%N then - sign i else sign i)
       /\ (forall i k, (i < length (str "10"))%nat -> (k < Z.to_nat 4)%nat ->
             pm !! (i * Z.to_nat 4 + k)%nat
             = Some (sign i * sin (2 * PI * INR k / IZR 4))).
Proof.
  split; [reflexivity|]; split; [lia|].
  apply (vectorised_pm_sign_per_cycle (fun _ => None) (fun _ _ => 0)
           (str "10") 4); [reflexivity | lia].
Defined.





Lemma cycles_start_at_zero_witness :
  forallb is_bit (str "10") = true /\ (1 <= 4)%Z
  /\ exists t am fm pm : list R,
       @waveforms plain_runtime false (str "10") 4 = Ok (t, am, fm, pm)
       /\ forall i, (i < length (str "10"))%nat ->
            am !! (i * Z.to_nat 4)%nat = Some 0
            /\ fm !! (i * Z.to_nat 4)%nat = Some 0
            /\ pm !! (i * Z.to_nat 4)%nat = Some 0.
Proof.
  split; [reflexivity|]; split; [lia|].
  apply (cycles_start_at_zero (fun _ => None) (fun _ _ => 0)
           false (str "10") 4); [reflexivity | lia].
Defined.



End FurtherRuns.

(** * The engine as it rounds *)

(** ** The samples in any arithmetic *)

Section AnySamples.
Import Py Spec Waveform.
Context `{Runtime}.

(** What the turns of a loop that ends establish one after the other, the
    loop establishes. *)
Lemma foldM_steps {S A} (body : S -> A -> result S) (I : nat -> S -> Prop)
    (l : list A) (s0 s' : S) :
  I 0%nat s0 ->
  (forall k a s s1, l !! k = Some a -> I k s -> body s a = Ok s1 ->
                    I (Datatypes.S k) s1) ->
  foldM body l s0 = Ok s' -> I (length l) s'.
Proof.
  revert I s0; induction l as [|a l IH]; intros I s0 H0 Hstep E.
  - now injection E as <-.
  - simpl in E; apply bind_inv in E as (s1 & E1 & E).
    apply (IH (fun k => I (Datatypes.S k)) s1); [| |exact E].
    + exact (Hstep 0%nat a s0 s1 eq_refl H0 E1).
    + intros k b s s2 Hk; apply (Hstep (Datatypes.S k) b s s2 Hk).
Qed.

(** What a slice assignment that succeeds leaves and what it writes, when
    the source is not shorter than the slice. *)
Lemma set_slice_lookup {A} (a src a' : list A) (lo hi : Z) :
  Np.set_slice a lo hi src = Ok a' ->
  (bound (length a) hi - bound (length a) lo <= length src)%nat ->
  (forall j, (j < bound (length a) lo)%nat -> a' !! j = a !! j)
  /\ (forall j, (bound (length a) lo <= j < bound (length a) hi)%nat ->
                a' !! j = src !! (j - bound (length a) lo)%nat).
Proof.
  unfold Np.set_slice; cbv zeta.
  pose proof (bound_le (length a) lo) as Hlo.
  set (lo' := bound (length a) lo) in *.
  set (hi' := bound (length a) hi) in *.
  intros E Hn.
  assert (Ltake : length (take lo' a) = lo')
    by (rewrite length_take; lia).
  destruct (length src =? hi' - lo')%nat eqn:Elen.
  - apply Nat.eqb_eq in Elen; injection E as <-; split; intros j Hj.
    + rewrite lookup_app_l by lia. apply lookup_take_lt; lia.
    + rewrite lookup_app_r by lia. rewrite Ltake.
      apply lookup_app_l; lia.
  - apply Nat.eqb_neq in Elen.
    destruct src as [|x [|? ?]]; try discriminate E; injection E as <-.
    simpl in Hn, Elen; split; intros j Hj; [|lia].
    rewrite lookup_app_l by lia. apply lookup_take_lt; lia.
Qed.

Lemma getitem_nonneg_inv {A} (l : list A) (k : Z) (x : A) :
  (0 <= k)%Z -> getitem l k = Ok x -> l !! Z.to_nat k = Some x.
Proof.
  intros Hk; unfold getitem, index.
  destruct (Z.ltb_spec k 0) as [Hneg|_]; [lia|].
  destruct (_ && _); [|discriminate].
  destruct (l !! Z.to_nat k); [|discriminate]. now intros [= <-].
Qed.

Lemma setitem_nonneg_inv {A} (l l' : list A) (k : Z) (x : A) :
  (0 <= k)%Z -> setitem l k x = Ok l' ->
  (Z.to_nat k < length l)%nat /\ l' = <[Z.to_nat k := x]> l.
Proof.
  intros Hk; unfold setitem, index.
  destruct (Z.ltb_spec k 0) as [Hneg|_]; [lia|].
  destruct (Z.leb_spec 0 k) as [_|Hneg]; [|lia].
  destruct (Z.ltb_spec k (Z.of_nat (length l))) as [Hlt|_]; [|discriminate].
  simpl; intros [= <-]; split; [lia | reflexivity].
Qed.

Lemma mod_inv (a b r : Z) : mod_ a b = Ok r -> r = (a mod b)%Z.
Proof. unfold mod_; destruct (b =? 0)%Z; [discriminate|]. now intros [= <-]. Qed.

Lemma int_chr0 v : int chr0 = Ok v -> v = 0%N.
Proof. now intros [= <-]. Qed.

Lemma int_chr1 v : int chr1 = Ok v -> v = 1%N.
Proof. now intros [= <-]. Qed.

(** *** The vectorised backend, whenever it returns *)

Lemma numpy_samples (code : list pychar) (s : nat)
    (t a f p : list float) :
  (0 < s)%nat ->
  _waveforms_numpy code (Z.of_nat s) = Ok (t, a, f, p) ->
  samples_upto code s t (length code * s) a f.
Proof.
  intros Hs E; unfold _waveforms_numpy in E.
  apply bind_inv in E as (step & _ & E).
  apply bind_inv in E as (t0 & _ & E).
  apply bind_inv in E as (w & Ew & E).
  injection E as <- <- <- <-.
  set (L := length t0).
  set (sl := slice_to t0 (Z.of_nat s)) in *.
  assert (Lsl : length sl = Nat.min s L)
    by (unfold sl; rewrite slice_to_nonneg, length_take; reflexivity).
  assert (Hsl : forall k, (k < s)%nat -> sl !! k = t0 !! k)
    by (intros k Hk; unfold sl; rewrite slice_to_nonneg;
        now apply lookup_take_lt).
  set (sin_t := Np.sin (Np.mul (Np.mul sl (float_of_int 2)) fpi)) in *.
  set (sin_2t := Np.sin (Np.mul (Np.mul (Np.rmul (float_of_int 2) sl)
                                        (float_of_int 2)) fpi)) in *.
  assert (Lsin : length sin_t = Nat.min s L)
    by (unfold sin_t, Np.sin, Np.mul; now rewrite !length_fmap).
  assert (Lsin2 : length sin_2t = Nat.min s L)
    by (unfold sin_2t, Np.sin, Np.mul, Np.rmul; now rewrite !length_fmap).
  assert (Hcut : forall l : list float, (length l <= s)%nat ->
                   slice_to l (Z.of_nat s) = l)
    by (intros l Hl; rewrite slice_to_nonneg; apply take_ge; lia).
  rewrite !Hcut in Ew by lia.
  pose (I := fun (idx : nat) (w : waves) =>
    length (am w) = L /\ length (fm w) = L
    /\ samples_upto code s t0 (idx * s) (am w) (fm w)).
  assert (Iw : I (length (enumerate code)) w).
  { revert Ew; apply foldM_steps.
    - unfold I; simpl; unfold Np.empty_like; rewrite !length_imap.
      split; [reflexivity|]; split; [reflexivity|].
      intros j b v tk Hj; lia.
    - intros idx [i val] w0 w1 Hlook (La & Lf & Hold) E.
      apply enumerate_lookup in Hlook as [-> Hval].
      apply bind_inv in E as (v0 & Ev0 & E).
      apply bind_inv in E as (am1 & Eam & E).
      apply bind_inv in E as (v1 & Ev1 & E).
      apply bind_inv in E as (fm1 & Efm & E).
      apply bind_inv in E as (ph & _ & E).
      apply bind_inv in E as (pm1 & _ & E).
      injection E as <-; unfold I; simpl.
      rewrite Ev0 in Ev1; injection Ev1 as <-.
      pose proof (set_slice_length _ _ _ _ _ Eam) as La1.
      pose proof (set_slice_length _ _ _ _ _ Efm) as Lf1.
      assert (Blo : bound L (Z.of_nat idx * Z.of_nat s) = Nat.min (idx * s) L)
        by (rewrite <- Nat2Z.inj_mul; apply bound_nonneg).
      assert (Bhi : bound L ((Z.of_nat idx + 1) * Z.of_nat s)
                    = Nat.min ((idx + 1) * s) L).
      { replace ((Z.of_nat idx + 1) * Z.of_nat s)%Z
          with (Z.of_nat ((idx + 1) * s)) by lia.
        apply bound_nonneg. }
      apply set_slice_lookup in Eam as [Ham_old Ham_new];
        [|rewrite La, Blo, Bhi; unfold Np.rmul; rewrite length_fmap; lia].
      apply set_slice_lookup in Efm as [Hfm_old Hfm_new];
        [|rewrite Lf, Blo, Bhi; destruct (truthy v0); lia].
      rewrite La, Blo in Ham_old; rewrite La, Blo, Bhi in Ham_new.
      rewrite Lf, Blo in Hfm_old; rewrite Lf, Blo, Bhi in Hfm_new.
      split; [congruence|]; split; [congruence|].
      intros j b v tk Hj HjL Hb Hv Htk.
      destruct (Nat.lt_ge_cases j (idx * s)) as [Hlt|Hge].
      + rewrite Ham_old, Hfm_old by lia. now apply (Hold j b v tk).
      + assert (Hk : (j - idx * s < s)%nat) by lia.
        assert (Ej : j = (idx * s + (j - idx * s))%nat) by lia.
        destruct (sample_cycle s idx (j - idx * s) Hk) as [Hdiv Hmod].
        rewrite <- Ej in Hdiv, Hmod.
        rewrite Hdiv, Hval in Hb; injection Hb as <-.
        rewrite Ev0 in Hv; injection Hv as <-.
        rewrite Hmod, <- Hsl in Htk by assumption.
        rewrite Ham_new, Hfm_new by lia.
        replace (j - Nat.min (idx * s) L)%nat with (j - idx * s)%nat by lia.
        split.
        * unfold Np.rmul, sin_t, Np.sin, Np.mul.
          rewrite !list_lookup_fmap, Htk; reflexivity.
        * unfold fm_sample, truthy; destruct (v0 =? 0)%N; simpl;
            unfold sin_2t, sin_t, Np.sin, Np.mul, Np.rmul;
            rewrite !list_lookup_fmap, Htk; reflexivity. }
  destruct Iw as (_ & _ & Hall).
  now rewrite enumerate_length in Hall.
Qed.

(** *** The scalar backend *)

Lemma native_samples (code : list pychar) (s : nat)
    (t a f p : list float) :
  (0 < s)%nat ->
  _waveforms_native code (Z.of_nat s) = Ok (t, a, f, p) ->
  samples_upto code s t (length code * s) a f.
Proof.
  intros Hs E; unfold _waveforms_native in E.
  apply bind_inv in E as (step & _ & E).
  apply bind_inv in E as (t0 & _ & E).
  apply bind_inv in E as ([sin_t sin_2t] & Etab & E).
  apply bind_inv in E as (w & Ew & E).
  injection E as <- <- <- <-.
  set (sl := slice_to t0 (Z.of_nat s)) in *.
  assert (Hsl : forall k, (k < s)%nat -> sl !! k = t0 !! k)
    by (intros k Hk; unfold sl; rewrite slice_to_nonneg;
        now apply lookup_take_lt).
  (* the base curves *)
  assert (Htab : forall k tk, sl !! k = Some tk ->
            sin_t !! k = Some (fsin (tk * float_of_int 2 * fpi)%py)
            /\ sin_2t !! k
               = Some (fsin (float_of_int 2 * tk * float_of_int 2 * fpi)%py)).
  { pose (I := fun (m : nat) (st : list float * list float) =>
      forall k tk, (k < m)%nat -> sl !! k = Some tk ->
        st.1 !! k = Some (fsin (tk * float_of_int 2 * fpi)%py)
        /\ st.2 !! k
           = Some (fsin (float_of_int 2 * tk * float_of_int 2 * fpi)%py)).
    assert (Iend : I (length (enumerate sl)) (sin_t, sin_2t)).
    { revert Etab; apply foldM_steps.
      - intros k tk Hk; lia.
      - intros m [idx t_m] [x y] [x1 y1] Hm Iold E.
        apply enumerate_lookup in Hm as [-> Hm].
        apply bind_inv in E as (x' & Ex & E).
        apply bind_inv in E as (y' & Ey & E).
        injection E as <- <-.
        apply setitem_nonneg_inv in Ex as [Lx ->]; [|lia].
        apply setitem_nonneg_inv in Ey as [Ly ->]; [|lia].
        rewrite Nat2Z.id in *.
        intros k tk Hk Hlook; simpl.
        destruct (Nat.eq_dec k m) as [->|Hne].
        + rewrite Hm in Hlook; injection Hlook as <-.
          now rewrite !list_lookup_insert_eq by lia.
        + rewrite !list_lookup_insert_ne by lia.
          apply (Iold k tk); [lia | exact Hlook]. }
    intros k tk Hlook; apply (Iend k tk); [|exact Hlook].
    rewrite enumerate_length; eapply lookup_lt_Some; eassumption. }
  (* the cycles *)
  pose (I := fun (m : nat) (w : waves) =>
    samples_upto code s t0 m (am w) (fm w)).
  assert (Iw : I (length (enumerate code) * s)%nat w).
  { revert Ew; apply (foldM_steps _ (fun idx => I (idx * s)%nat)).
    - intros j b v tk Hj; lia.
    - intros idx [i val] w0 w1 Hlook Iold E.
      apply enumerate_lookup in Hlook as [-> Hval].
      cbv beta iota in E.
      assert (Iend : I (idx * s + length (range (Z.of_nat idx * Z.of_nat s)
                          ((Z.of_nat idx + 1) * Z.of_nat s)))%nat w1).
      { revert E; apply (foldM_steps _ (fun k => I (idx * s + k)%nat)).
        - now rewrite Nat.add_0_r.
        - clear w1; intros k i w1 w2 Hi Ik E.
          apply range_lookup in Hi as [Ei Hlt].
          assert (Hk : (k < s)%nat) by nia.
          assert (Ez : i = Z.of_nat (idx * s + k)) by lia.
          destruct (sample_cycle s idx k Hk) as [Hdiv Hmod].
          assert (Emod : (i mod Z.of_nat s)%Z = Z.of_nat k)
            by (rewrite Ez, <- Nat2Z.inj_mod, Hmod; reflexivity).
          apply bind_inv in E as (v0 & Ev0 & E).
          apply bind_inv in E as (k1 & Ek1 & E).
          apply bind_inv in E as (x & Ex & E).
          apply bind_inv in E as (am1 & Eam & E).
          apply bind_inv in E as (v1 & Ev1 & E).
          apply bind_inv in E as (k2 & Ek2 & E).
          apply bind_inv in E as (y & Ey & E).
          apply bind_inv in E as (fm1 & Efm & E).
          apply bind_inv in E as (ph & _ & E).
          apply bind_inv in E as (k3 & _ & E).
          apply bind_inv in E as (z & _ & E).
          apply bind_inv in E as (pm1 & _ & E).
          injection E as <-.
          rewrite Ev0 in Ev1; injection Ev1 as <-.
          apply mod_inv in Ek1, Ek2; rewrite Emod in Ek1, Ek2; subst k1 k2.
          apply getitem_nonneg_inv in Ex; [|lia]; rewrite Nat2Z.id in Ex.
          assert (Ey' : (if truthy v0 then sin_2t else sin_t) !! k = Some y).
          { destruct (truthy v0);
              (apply getitem_nonneg_inv in Ey; [|lia]);
              now rewrite Nat2Z.id in Ey. }
          apply setitem_nonneg_inv in Eam as [La ->]; [|lia].
          apply setitem_nonneg_inv in Efm as [Lf ->]; [|lia].
          rewrite Ez, Nat2Z.id in *.
          unfold I; simpl; intros j b v tk Hj HjL Hb Hv Htk.
          destruct (Nat.eq_dec j (idx * s + k)%nat) as [->|Hne].
          + rewrite !list_lookup_insert_eq by lia.
            rewrite Hdiv, Hval in Hb; injection Hb as <-.
            rewrite Ev0 in Hv; injection Hv as <-.
            rewrite Hmod, <- Hsl in Htk by assumption.
            destruct (Htab k tk Htk) as [Hx Hy].
            rewrite Hx in Ex; injection Ex as <-.
            split; [reflexivity|].
            unfold fm_sample; unfold truthy in Ey'.
            destruct (v0 =? 0)%N; simpl in Ey'; congruence.
          + rewrite !list_lookup_insert_ne by lia.
            apply (Ik j b v tk); [lia | assumption..]. }
      rewrite range_length in Iend.
      replace (Z.to_nat ((Z.of_nat idx + 1) * Z.of_nat s
                         - Z.of_nat idx * Z.of_nat s)) with s in Iend by lia.
      now replace (S idx * s)%nat with (idx * s + s)%nat by lia. }
  now rewrite enumerate_length in Iw.
Qed.

(** *** Either backend *)

Lemma waveforms_samples (slow : bool) (code : list pychar) (steps : Z)
    (t a f p : list float) :
  (1 <= steps)%Z ->
  waveforms slow code steps = Ok (t, a, f, p) ->
  samples_upto code (Z.to_nat steps) t (length code * Z.to_nat steps) a f.
Proof.
  intros Hsteps E.
  rewrite <- (Z2Nat.id steps) in E by lia.
  destruct slow; [eapply native_samples | eapply numpy_samples];
    try eassumption; lia.
Qed.

End AnySamples.

(** ** Double precision: what a quotient of integers can be *)

Section DoubleFacts.
Import SpecFloat FloatOps FloatAxioms.











End DoubleFacts.

(** ** The engine with nothing to compute *)


Section NoSamples.
Import Py Spec Waveform.


Lemma bits_are_decimal `{Runtime} (code : list pychar) :
  forallb is_bit code = true -> forallb is_decimal code = true.
Proof.
  intros Hcode; apply forallb_forall; intros c Hc.
  apply (proj1 (forallb_forall _ _) Hcode) in Hc.
  unfold is_decimal; apply int_bit in Hc; unfold int in Hc.
  now destruct (decimal_value c).
Qed.


End NoSamples.

(** ** The claims on the engine that rounding touches *)

Section RoundedClaims.
Import Py Spec Waveform.

(** The two sines of sample 3 of the single bit 1 at five samples per
    cycle, in double precision: the backends apply the sine to
    [0x1.e28c731eb6951p+1] (and to twice that), the equations of the
    specification to [0x1.e28c731eb6950p+1] (and to twice that). *)
Lemma sine_arguments_at_3_of_5 (slow : bool)
    (libm_sin : PrimFloat.float -> PrimFloat.float)
    (garbage : nat -> nat -> PrimFloat.float) :
  let rt := binary64_runtime (fun _ => None) libm_sin garbage in
  let x := FloatOps.SF2Prim (SpecFloat.S754_finite false 8489085302434129 (-51)) in
  let y := FloatOps.SF2Prim (SpecFloat.S754_finite false 8489085302434128 (-51)) in
  exists t am fm pm,
    @waveforms rt slow (str "1") 5 = Ok (t, am, fm, pm)
    /\ am !! 3%nat = Some (PrimFloat.mul (B64.of_Z 1) (libm_sin x))
    /\ fm !! 3%nat = Some (libm_sin (PrimFloat.mul (B64.of_Z 2) x))
    /\ (float_of_int 2 * fpi * float_of_int 3 / float_of_int 5)%py = y
    /\ (float_of_int 2 * fpi * float_of_int 2 * float_of_int 3
        / float_of_int 5)%py = PrimFloat.mul (B64.of_Z 2) y
    /\ PrimFloat.eqb x y = false.
Proof.
  intros rt x y.
  remember (@waveforms rt slow (str "1") 5) as r eqn:E.
  destruct slow; vm_compute in E; subst r;
    (eexists _, _, _, _; split; [reflexivity|]);
    repeat split; vm_compute; reflexivity.
Qed.

Lemma INR_as_float (n : nat) : INR n = IZR (Z.of_nat n).
Proof. apply INR_IZR_INZ. Qed.

(** Without rounding the equations of the specification hold. *)
Lemma am_as_specified_exact digits garbage :
  am_as_specified (exact_runtime digits garbage).
Proof.
  intros slow code steps t am fm pm j b v Hcode Hsteps E Hj Hb Hv.
  assert (Hne : code <> []) by (intros ->; simpl in Hj; lia).
  destruct (am_samples_exact digits garbage slow code steps Hne Hcode Hsteps)
    as (t' & a' & f' & p' & E' & Hall).
  rewrite E in E'; injection E' as <- <- <- <-.
  destruct (Hall j b v Hj Hb Hv) as [Ha _].
  etransitivity; [exact Ha|]; exact_arith.
  rewrite INR_as_float; reflexivity.
Qed.

Lemma fm_as_specified_exact digits garbage :
  fm_as_specified (exact_runtime digits garbage).
Proof.
  intros slow code steps t am fm pm j b Hcode Hsteps E Hj Hb.
  assert (Hne : code <> []) by (intros ->; simpl in Hj; lia).
  destruct (fm_samples_exact digits garbage slow code steps Hne Hcode Hsteps)
    as (t' & a' & f' & p' & E' & Hall).
  rewrite E in E'; injection E' as <- <- <- <-.
  destruct (Hall j b Hj Hb) as [H1 H0].
  split; intros Eb;
    (etransitivity; [first [exact (H1 Eb) | exact (H0 Eb)]|]);
    exact_arith; rewrite INR_as_float; reflexivity.
Qed.

(** The scalar backend returns on every bit sequence, in any arithmetic. *)
Lemma native_returns `{Runtime} (code : list pychar) (steps : Z) :
  forallb is_bit code = true -> (1 <= steps)%Z ->
  exists t am fm pm,
    waveforms true code steps = Ok (t, am, fm, pm)
    /\ length t = (length code * Z.to_nat steps)%nat
    /\ length am = (length code * Z.to_nat steps)%nat
    /\ length fm = (length code * Z.to_nat steps)%nat.
Proof.
  intros Hcode Hsteps.
  destruct (native_outcome code (Z.to_nat steps) ltac:(lia)) as [Hok _].
  rewrite Z2Nat.id in Hok by lia.
  destruct (Hok (bits_are_decimal code Hcode))
    as (t & a & f & p & E & Lt & La & Lf & _).
  now exists t, a, f, p.
Qed.

(** C6, as the code has it. On a bit sequence with [steps >= 1], whenever
    [waveforms] returns (the scalar backend always does), sample [j] of the
    AM wave, in cycle [i = j // steps] at position [k = j % steps], is the
    product, in the arithmetic of the runtime, of [(int(bit_i) + 1) / 2]
    and of [sin(t[k] * 2 * pi)], the entry of the backend's base sine table
    for point [k] of the time axis it returns; the factor is the double one
    half for a 0 bit and the double one for a 1 bit. Without rounding that
    is [((int(bit_i) + 1) / 2) * sin(2 pi k / steps)], and [waveforms]
    returns in both backends. *)
Theorem am_samples_from_the_time_axis :
  (forall (rt : Runtime) (slow : bool) (code : list pychar) (steps : Z)
          (t am fm pm : list float),
     (1 <= steps)%Z -> waveforms slow code steps = Ok (t, am, fm, pm) ->
     forall (j : nat) (b : pychar) (v : N) (tk : float),
       (j < length code * Z.to_nat steps)%nat -> (j < length t)%nat ->
       code !! (j / Z.to_nat steps)%nat = Some b -> int b = Ok v ->
       t !! (j mod Z.to_nat steps)%nat = Some tk ->
       am !! j = Some (float_of_int (Z.of_N v + 1) / float_of_int 2
                       * fsin (tk * float_of_int 2 * fpi))%py
       /\ (b = chr0 -> v = 0%N) /\ (b = chr1 -> v = 1%N))
  /\ (forall (rt : Runtime) (code : list pychar) (steps : Z),
        forallb is_bit code = true -> (1 <= steps)%Z ->
        exists t am fm pm,
          waveforms true code steps = Ok (t, am, fm, pm)
          /\ length t = (length code * Z.to_nat steps)%nat
          /\ length am = (length code * Z.to_nat steps)%nat)
  /\ (FloatOps.Prim2SF (PrimFloat.div (B64.of_Z (0 + 1)) (B64.of_Z 2))
      = SpecFloat.S754_finite false 4503599627370496 (-53)
      /\ FloatOps.Prim2SF (PrimFloat.div (B64.of_Z (1 + 1)) (B64.of_Z 2))
         = SpecFloat.S754_finite false 4503599627370496 (-52))
  /\ (forall digits garbage, am_as_specified (exact_runtime digits garbage))
  /\ (forall digits garbage (slow : bool) (code : list pychar) (steps : Z),
        code <> [] -> forallb is_bit code = true -> (1 <= steps)%Z ->
        exists t am fm pm : list R,
          @waveforms (exact_runtime digits garbage) slow code steps
          = Ok (t, am, fm, pm)
          /\ forall j b v,
               (j < length code * Z.to_nat steps)%nat ->
               code !! (j / Z.to_nat steps)%nat = Some b ->
               @int (exact_runtime digits garbage) b = Ok v ->
               am !! j
               = Some (IZR (Z.of_N v + 1) / 2
                       * sin (2 * PI * INR (j mod Z.to_nat steps)
                              / IZR steps))%R
               /\ (b = chr0 -> IZR (Z.of_N v + 1) / 2 = 1 / 2)%R
               /\ (b = chr1 -> IZR (Z.of_N v + 1) / 2 = 1)%R).
Proof.
  split; [|split; [|split; [|split]]].
  - intros rt slow code steps t am fm pm Hsteps E j b v tk Hj HjL Hb Hv Htk.
    destruct (waveforms_samples slow code steps t am fm pm Hsteps E
                j b v tk Hj HjL Hb Hv Htk) as [Ha _].
    split; [exact Ha|]; split; intros ->; [apply int_chr0 | apply int_chr1];
      exact Hv.
  - intros rt code steps Hcode Hsteps.
    destruct (native_returns code steps Hcode Hsteps)
      as (t & a & f & p & E & Lt & La & _).
    now exists t, a, f, p.
  - split; vm_compute; reflexivity.
  - exact am_as_specified_exact.
  - exact am_samples_exact.
Qed.

(** C7, as the code has it. On a bit sequence with [steps >= 1], whenever
    [waveforms] returns (the scalar backend always does), sample [j] of the
    FM wave, in cycle [i = j // steps] at position [k = j % steps], is, in
    the arithmetic of the runtime, [sin(2 * t[k] * 2 * pi)] for a 1 bit and
    [sin(t[k] * 2 * pi)] for a 0 bit: the entries of the backend's doubled
    and base sine tables for point [k] of the time axis it returns. Without
    rounding they are [sin(2 pi 2 k / steps)] and [sin(2 pi k / steps)],
    and [waveforms] returns in both backends. *)
Theorem fm_samples_from_the_time_axis :
  (forall (rt : Runtime) (slow : bool) (code : list pychar) (steps : Z)
          (t am fm pm : list float),
     (1 <= steps)%Z -> waveforms slow code steps = Ok (t, am, fm, pm) ->
     forall (j : nat) (b : pychar) (tk : float),
       (j < length code * Z.to_nat steps)%nat -> (j < length t)%nat ->
       code !! (j / Z.to_nat steps)%nat = Some b ->
       t !! (j mod Z.to_nat steps)%nat = Some tk ->
       (b = chr1 ->
        fm !! j
        = Some (fsin (float_of_int 2 * tk * float_of_int 2 * fpi))%py)
       /\ (b = chr0 ->
           fm !! j = Some (fsin (tk * float_of_int 2 * fpi))%py))
  /\ (forall (rt : Runtime) (code : list pychar) (steps : Z),
        forallb is_bit code = true -> (1 <= steps)%Z ->
        exists t am fm pm,
          waveforms true code steps = Ok (t, am, fm, pm)
          /\ length t = (length code * Z.to_nat steps)%nat
          /\ length fm = (length code * Z.to_nat steps)%nat)
  /\ (forall digits garbage, fm_as_specified (exact_runtime digits garbage))
  /\ (forall digits garbage (slow : bool) (code : list pychar) (steps : Z),
        code <> [] -> forallb is_bit code = true -> (1 <= steps)%Z ->
        exists t am fm pm : list R,
          @waveforms (exact_runtime digits garbage) slow code steps
          = Ok (t, am, fm, pm)
          /\ forall j b,
               (j < length code * Z.to_nat steps)%nat ->
               code !! (j / Z.to_nat steps)%nat = Some b ->
               (b = chr1 ->
                fm !! j = Some (sin (2 * PI * 2 * INR (j mod Z.to_nat steps)
                                     / IZR steps))%R)
               /\ (b = chr0 ->
                   fm !! j = Some (sin (2 * PI * INR (j mod Z.to_nat steps)
                                        / IZR steps))%R)).
Proof.
  split; [|split; [|split]].
  - intros rt slow code steps t am fm pm Hsteps E j b tk Hj HjL Hb Htk.
    split; intros ->.
    + now destruct (waveforms_samples slow code steps t am fm pm Hsteps E
                      j chr1 1%N tk Hj HjL Hb eq_refl Htk) as [_ Hf].
    + now destruct (waveforms_samples slow code steps t am fm pm Hsteps E
                      j chr0 0%N tk Hj HjL Hb eq_refl Htk) as [_ Hf].
  - intros rt code steps Hcode Hsteps.
    destruct (native_returns code steps Hcode Hsteps)
      as (t & a & f & p & E & Lt & _ & Lf).
    now exists t, a, f, p.
  - exact fm_as_specified_exact.
  - exact fm_samples_exact.
Qed.

(** C6, refuted as stated: in double precision the AM sample is not the
    product the specification writes, for every sine. At the single bit 1
    with five samples per cycle the backends take the sine of
    [t[3] * 2 * pi = 0x1.e28c731eb6951p+1], the specification that of
    [2 * pi * 3 / 5 = 0x1.e28c731eb6950p+1]: the equation holds for no
    sine that tells the two doubles apart (here the run is made with one
    that does; the sine of the C library does, -0.5877852522924734 against
    -0.587785252292473). *)
Lemma am_differs_from_the_specified_product :
  ~ (forall (libm_sin : PrimFloat.float -> PrimFloat.float)
            (garbage : nat -> nat -> PrimFloat.float),
       am_as_specified (binary64_runtime (fun _ => None) libm_sin garbage)).
Proof.
  intros Hspec.
  pose (id_sin := fun x : PrimFloat.float => x).
  pose (zeros := fun _ _ : nat => PrimFloat.zero).
  destruct (sine_arguments_at_3_of_5 true id_sin zeros)
    as (t & am & fm & pm & E & Ha & _ & Ey & _ & _).
  pose proof (Hspec id_sin zeros true (str "1") 5%Z t am fm pm 3%nat chr1 1%N
                eq_refl ltac:(lia) E ltac:(simpl; lia) eq_refl eq_refl)
    as Hs.
  pose proof (eq_trans (eq_sym Ha) Hs) as Hx; clear Hs.
  match type of Hx with
  | Some ?x = _ =>
      apply (f_equal (fun o => match o with
                               | Some z => PrimFloat.eqb z x
                               | None => false
                               end)) in Hx
  end.
  vm_compute in Hx; discriminate Hx.
Qed.

(** C7, refuted as stated: in double precision the FM sample of a 1 bit is
    not the sine the specification writes, for every sine. At the single
    bit 1 with five samples per cycle the backends take the sine of
    [2 * t[3] * 2 * pi = 0x1.e28c731eb6951p+2], the specification that of
    [2 * pi * 2 * 3 / 5 = 0x1.e28c731eb6950p+2] (the sine of the C library
    gives 0.9510565162951538 and 0.9510565162951535). *)
Lemma fm_differs_from_the_specified_sine :
  ~ (forall (libm_sin : PrimFloat.float -> PrimFloat.float)
            (garbage : nat -> nat -> PrimFloat.float),
       fm_as_specified (binary64_runtime (fun _ => None) libm_sin garbage)).
Proof.
  intros Hspec.
  pose (id_sin := fun x : PrimFloat.float => x).
  pose (zeros := fun _ _ : nat => PrimFloat.zero).
  destruct (sine_arguments_at_3_of_5 false id_sin zeros)
    as (t & am & fm & pm & E & _ & Hf & _ & Ey & _).
  destruct (Hspec id_sin zeros false (str "1") 5%Z t am fm pm 3%nat chr1
              eq_refl ltac:(lia) E ltac:(simpl; lia) eq_refl) as [Hs _].
  pose proof (eq_trans (eq_sym Hf) (Hs eq_refl)) as Hx; clear Hs.
  match type of Hx with
  | Some ?x = _ =>
      apply (f_equal (fun o => match o with
                               | Some z => PrimFloat.eqb z x
                               | None => false
                               end)) in Hx
  end.
  vm_compute in Hx; discriminate Hx.
Qed.

End RoundedClaims.

(** ** The claims on the arguments the engine does not check *)

Section UncheckedArguments.
Import Py Spec Waveform.






End UncheckedArguments.

(** ** Runs of the revised statements *)

Section RoundedRuns.
Import Py Spec Waveform.
Local Existing Instance plain_runtime.
Open Scope R_scope.

Lemma am_samples_from_the_time_axis_witness :
  (1 <= 4)%Z
  /\ exists t am fm pm : list R,
       waveforms true (str "10") 4%Z = Ok (t, am, fm, pm)
       /\ forall (j : nat) (b : pychar) (v : N) (tk : R),
            (j < length (str "10") * Z.to_nat 4%Z)%nat -> (j < length t)%nat ->
            str "10" !! (j / Z.to_nat 4%Z)%nat = Some b -> int b = Ok v ->
            t !! (j mod Z.to_nat 4%Z)%nat = Some tk ->
            am !! j = Some (IZR (Z.of_N v + 1) / 2 * sin (tk * 2 * PI))
            /\ (b = chr0 -> v = 0%N) /\ (b = chr1 -> v = 1%N).
Proof.
  split; [lia|].
  destruct (exact_shape_and_time_axis (fun _ => None) (fun _ _ => 0)
              true (str "10") 4 eq_refl ltac:(lia))
    as (t & a & f & p & E & _).
  exists t, a, f, p; split; [exact E|].
  apply (proj1 am_samples_from_the_time_axis plain_runtime
           true (str "10") 4%Z t a f p ltac:(lia) E).
Defined.

Lemma fm_samples_from_the_time_axis_witness :
  (1 <= 4)%Z
  /\ exists t am fm pm : list R,
       waveforms false (str "10") 4%Z = Ok (t, am, fm, pm)
       /\ forall (j : nat) (b : pychar) (tk : R),
            (j < length (str "10") * Z.to_nat 4%Z)%nat -> (j < length t)%nat ->
            str "10" !! (j / Z.to_nat 4%Z)%nat = Some b ->
            t !! (j mod Z.to_nat 4%Z)%nat = Some tk ->
            (b = chr1 -> fm !! j = Some (sin (2 * tk * 2 * PI)))
            /\ (b = chr0 -> fm !! j = Some (sin (tk * 2 * PI))).
Proof.
  split; [lia|].
  destruct (exact_shape_and_time_axis (fun _ => None) (fun _ _ => 0)
              false (str "10") 4 eq_refl ltac:(lia))
    as (t & a & f & p & E & _).
  exists t, a, f, p; split; [exact E|].
  apply (proj1 fm_samples_from_the_time_axis plain_runtime
           false (str "10") 4%Z t a f p ltac:(lia) E).
Defined.



End RoundedRuns.
